(** * Active participant resolver (pkg/staking/participants.go)

    A shallow embedding of the staking participant resolver and the
    properties of its five operations.  The resolver talks to three
    collaborators that live outside the package: the chain head store
    ([blockchain]), the execution engine ([executor], [Transition]) and
    the ABI codec.  Calls to them are events of a small free monad; a
    handler gives them a meaning, and every call performed is recorded. *)

From Stdlib Require Import ZArith Lia List.
From Stdlib.Strings Require Import Byte Ascii.
From stdpp Require Import base tactics option list strings gmap.

Open Scope Z_scope.

(** ** Go base types *)

(** [uint64] arithmetic wraps around. *)
Definition uint64 (z : Z) : Z := z mod 2 ^ 64.

(** A Go [error] value; [nil] is [None] of [option error]. *)
Definition error := string.

(** A Go slice: [nil] is [None], and ranging over [nil] visits nothing. *)
Definition slice (A : Type) := option (list A).

Definition elems {A} (s : slice A) : list A := default [] s.

#[global] Instance byte_eq_dec : EqDecision byte := Byte.byte_eq_dec.

(** ** polygon-edge [types] *)
Module types.

Definition AddressLength : nat := 20.

(** [Address] is [[20]byte], [Hash] is [[32]byte], [Nonce] is [[8]byte];
    array equality is equality of the byte sequences. *)
Definition Address := list byte.
Definition Hash := list byte.
Definition Nonce := list byte.

(** [types.Nonce{}]: the zero value. *)
Definition ZeroNonce : Nonce := replicate 8 x00.
Definition ZeroHash : Hash := replicate 32 x00.

(** [BytesToAddress]: the last twenty bytes of [b], left-padded with
    zeroes when [b] is shorter. *)
Definition BytesToAddress (b : list byte) : Address :=
  let min := Nat.min (length b) AddressLength in
  replicate (AddressLength - min) x00 ++ drop (length b - min) b.

(** [a.Bytes()] is [a[:]]. *)
Definition Bytes (a : Address) : list byte := a.

(** [types.Address(waddr)]: conversion from [ethgo.Address], another
    [[20]byte]. *)
Definition Address_of_ethgo (waddr : list byte) : Address := waddr.

End types.

(** [types.Header], with the fields the resolver reads or sets; the
    header it builds leaves every other field at its zero value. *)
Module Header.
Record t := mk {
  ParentHash : types.Hash;
  Number : Z;
  Miner : list byte;
  Nonce : types.Nonce;
  GasLimit : Z;
  Timestamp : Z;
  Hash : types.Hash;
  StateRoot : types.Hash
}.
End Header.

(** [types.Transaction] as the resolver fills it. *)
Module Transaction.
Record t := mk {
  From : types.Address;
  To : option types.Address;
  Value : Z;
  Input : list byte;
  GasPrice : Z;
  Gas : Z;
  Nonce : Z
}.
End Transaction.

(** [runtime.ExecutionResult]. *)
Module ExecutionResult.
Record t := mk {
  ReturnValue : list byte;
  Err : option error
}.

(** [res.Failed()] *)
Definition Failed (res : t) : bool := bool_decide (Err res ≠ None).
End ExecutionResult.

(** ** ethgo [abi] *)
Module abi.

(** A decoded or to-be-encoded Go value ([interface{}]). *)
Inductive value :=
| Nil
| Map (m : list (string * value))
| Addresses (l : list (list byte))
| Bytes (b : list byte)
| BigInt (z : Z).

(** [m[key]] on a [map[string]interface{}]: a missing key gives the
    nil interface. *)
Fixpoint index (m : list (string * value)) (key : string) : value :=
  match m with
  | [] => Nil
  | (k, v) :: m' => if decide (k = key) then v else index m' key
  end.

(** [abi.Method]: its selector and its two codecs. *)
Record Method := mkMethod {
  ID : list byte;
  Inputs_Encode : value → error + list byte;
  Outputs_Decode : list byte → error + value
}.

End abi.

Definition NodeType := string.

(** ** What the package takes from outside this file

    The node-type constants and the staking contract address are
    declared elsewhere in the package, the method table comes from the
    contracts repository, [Address.String] from polygon-edge, and the
    representation of an open transition belongs to the engine. *)
Class Externals := {
  Sequencer : NodeType;
  WatchTower : NodeType;
  AddrStakingContract : types.Address;
  StakingABI_Methods : gmap string abi.Method;
  Address_String : types.Address → string;
  Transition : Type
}.

(** The facts about them the proofs use: the two constants are distinct
    (they are cases of one [switch]), and the textual form of an
    address determines it. *)
Class ExternalsOK (ext : Externals) : Prop := {
  Sequencer_WatchTower : Sequencer ≠ WatchTower;
  Address_String_inj : ∀ a b : types.Address,
    Address_String a = Address_String b → a = b
}.

(** ** Calls to the collaborators *)
Section Effects.
Context {ext : Externals}.

(** A Go [(value, error)] result of a collaborator is a sum: the
    value is usable exactly when the error is [nil]. *)
Inductive Event : Type → Type :=
| blockchain_Header : Event Header.t
| blockchain_CalculateGasLimit (number : Z) : Event (error + Z)
| time_Now_Unix : Event Z
| executor_BeginTxn (parentRoot : types.Hash) (header : Header.t)
    (coinbase : types.Address) : Event (error + Transition)
| Transition_GetNonce (t : Transition) (addr : types.Address) : Event Z
| Transition_Apply (t : Transition) (msg : Transaction.t)
    : Event (error + ExecutionResult.t)
| logger_Error (msg : string) (err : error) : Event ()
| logger_Debug (msg : string) : Event ().

(** Programs: a returned value, or a call and what to do with its
    answer.  Every program here is finite. *)
Inductive Prog (A : Type) : Type :=
| Ret (a : A)
| Vis {X : Type} (e : Event X) (k : X → Prog A).
#[global] Arguments Ret {A} a.
#[global] Arguments Vis {A X} e k.

Fixpoint bind {A B} (p : Prog A) (f : A → Prog B) : Prog B :=
  match p with
  | Ret a => f a
  | Vis e k => Vis e (λ x, bind (k x) f)
  end.

#[global] Instance Prog_ret : MRet Prog := @Ret.
#[global] Instance Prog_bind : MBind Prog := λ A B f p, bind p f.

Definition call {X} (e : Event X) : Prog X := Vis e Ret.

(** One performed call together with its answer. *)
Record Call := mkCall {
  call_type : Type;
  call_event : Event call_type;
  call_answer : call_type
}.
#[global] Arguments mkCall {call_type} call_event call_answer.

(** A handler answers every call and may keep state of its own. *)
Definition Handler (S : Type) := ∀ X, Event X → S → X * S.

(** Running a program: its value, the final handler state and the
    calls performed, in order. *)
Fixpoint interp {S A} (h : Handler S) (p : Prog A) (s : S)
  : A * S * list Call :=
  match p with
  | Ret a => (a, s, [])
  | Vis e k =>
      let '(x, s1) := h _ e s in
      let '(a, s2, tr) := interp h (k x) s1 in
      (a, s2, mkCall e x :: tr)
  end.

Definition result {S A} (h : Handler S) (p : Prog A) (s : S) : A :=
  (interp h p s).1.1.

Definition trace {S A} (h : Handler S) (p : Prog A) (s : S) : list Call :=
  (interp h p s).2.

(** The error a call reported, if it did: a failed call, or an applied
    transaction whose result is marked failed. *)
Definition call_error (c : Call) : option error :=
  match c with
  | mkCall e x =>
      match e in Event X return X → option error with
      | blockchain_CalculateGasLimit _ => λ r,
          match r with inl err => Some err | inr _ => None end
      | executor_BeginTxn _ _ _ => λ r,
          match r with inl err => Some err | inr _ => None end
      | Transition_Apply _ _ => λ r,
          match r with
          | inl err => Some err
          | inr res => ExecutionResult.Err res
          end
      | _ => λ _, None
      end x
  end.

(** Calls that reach the execution engine. *)
Definition is_engine_call (c : Call) : bool :=
  match call_event c with
  | executor_BeginTxn _ _ _ | Transition_GetNonce _ _
  | Transition_Apply _ _ => true
  | _ => false
  end.

(** Calls that submit a transaction to the contract. *)
Definition is_contract_call (c : Call) : bool :=
  match call_event c with
  | Transition_Apply _ _ => true
  | _ => false
  end.

End Effects.

(** ** The [ActiveParticipants] interface

    An interface value is the record of its five methods. *)
Record ActiveParticipants {ext : Externals} := {
  Get : NodeType → Prog (slice types.Address * option error);
  Contains : types.Address → NodeType → Prog (bool * option error);
  InProbation : types.Address → Prog (bool * option error);
  GetBalance : types.Address → Prog (option Z * option error);
  GetTotalStakedAmount : Prog (option Z * option error)
}.

(** [big.Int.SetBytes]: the buffer read as a big-endian unsigned
    integer. *)
Definition byte_to_Z (b : byte) : Z := Z.of_N (Byte.to_N b).

Definition SetBytes (buf : list byte) : Z :=
  fold_left (λ acc b, acc * 256 + byte_to_Z b) buf 0.

(** ** Contract queries *)
Section Queries.
Context {ext : Externals}.

Definition DecodeParticipants (method : abi.Method) (returnValue : list byte)
  : slice types.Address * option error :=
  match abi.Outputs_Decode method returnValue with
  | inl err => (None, Some err)
  | inr decodedResults =>
      match decodedResults with
      | abi.Map results =>
          match abi.index results "0" with
          | abi.Addresses web3Addresses =>
              (Some (map types.Address_of_ethgo web3Addresses), None)
          | _ =>
              (None,
               Some "failed type assertion from results[0] to []ethgo.Address")
          end
      | _ =>
          (None, Some "failed type assertion from decodedResults to map")
      end
  end.

(** The read-only call all queries submit: no value, no gas price,
    the nonce the transition reports for [from]. *)
Definition QueryParticipants (t : Transition) (gasLimit : Z)
  (from : types.Address) : Prog (slice types.Address * option error) :=
  match StakingABI_Methods !! "GetCurrentParticipants" with
  | None =>
      mret (None,
        Some "GetCurrentParticipants method doesn't exist in Staking contract ABI")
  | Some method =>
      let selector := abi.ID method in
      nonce ← call (Transition_GetNonce t from);
      r ← call (Transition_Apply t
        {| Transaction.From := from;
           Transaction.To := Some AddrStakingContract;
           Transaction.Value := 0;
           Transaction.Input := selector;
           Transaction.GasPrice := 0;
           Transaction.Gas := gasLimit;
           Transaction.Nonce := nonce |});
      match r with
      | inl err => mret (None, Some err)
      | inr res =>
          if ExecutionResult.Failed res
          then mret (None, ExecutionResult.Err res)
          else mret (DecodeParticipants method (ExecutionResult.ReturnValue res))
      end
  end.

Definition QuerySequencers (t : Transition) (gasLimit : Z)
  (from : types.Address) : Prog (slice types.Address * option error) :=
  match StakingABI_Methods !! "GetCurrentSequencers" with
  | None =>
      mret (None,
        Some "GetCurrentSequencers method doesn't exist in Staking contract ABI")
  | Some method =>
      let selector := abi.ID method in
      nonce ← call (Transition_GetNonce t from);
      r ← call (Transition_Apply t
        {| Transaction.From := from;
           Transaction.To := Some AddrStakingContract;
           Transaction.Value := 0;
           Transaction.Input := selector;
           Transaction.GasPrice := 0;
           Transaction.Gas := gasLimit;
           Transaction.Nonce := nonce |});
      match r with
      | inl err => mret (None, Some err)
      | inr res =>
          if ExecutionResult.Failed res
          then mret (None, ExecutionResult.Err res)
          else mret (DecodeParticipants method (ExecutionResult.ReturnValue res))
      end
  end.

Definition QuerySequencersInProbation (t : Transition) (gasLimit : Z)
  (from : types.Address) : Prog (slice types.Address * option error) :=
  match StakingABI_Methods !! "GetCurrentSequencersInProbation" with
  | None =>
      mret (None,
        Some "GetCurrentSequencersInProbation method doesn't exist in Staking contract ABI")
  | Some method =>
      let selector := abi.ID method in
      nonce ← call (Transition_GetNonce t from);
      r ← call (Transition_Apply t
        {| Transaction.From := from;
           Transaction.To := Some AddrStakingContract;
           Transaction.Value := 0;
           Transaction.Input := selector;
           Transaction.GasPrice := 0;
           Transaction.Gas := gasLimit;
           Transaction.Nonce := nonce |});
      match r with
      | inl err => mret (None, Some err)
      | inr res =>
          if ExecutionResult.Failed res
          then mret (None, ExecutionResult.Err res)
          else mret (DecodeParticipants method (ExecutionResult.ReturnValue res))
      end
  end.

Definition QueryWatchtower (t : Transition) (gasLimit : Z)
  (from : types.Address) : Prog (slice types.Address * option error) :=
  match StakingABI_Methods !! "GetCurrentWatchtowers" with
  | None =>
      mret (None,
        Some "GetCurrentWatchtowers method doesn't exist in Staking contract ABI")
  | Some method =>
      let selector := abi.ID method in
      nonce ← call (Transition_GetNonce t from);
      r ← call (Transition_Apply t
        {| Transaction.From := from;
           Transaction.To := Some AddrStakingContract;
           Transaction.Value := 0;
           Transaction.Input := selector;
           Transaction.GasPrice := 0;
           Transaction.Gas := gasLimit;
           Transaction.Nonce := nonce |});
      match r with
      | inl err => mret (None, Some err)
      | inr res =>
          if ExecutionResult.Failed res
          then mret (None, ExecutionResult.Err res)
          else mret (DecodeParticipants method (ExecutionResult.ReturnValue res))
      end
  end.

(** The inner loop of [QueryActiveSequencers]: does some probation
    address print like [addr]? *)
Fixpoint probationLoop (addr : types.Address)
  (probationAddrs : list types.Address) : bool :=
  match probationAddrs with
  | [] => false
  | probationAddr :: rest =>
      if decide (Address_String addr = Address_String probationAddr)
      then true
      else probationLoop addr rest
  end.

(** [mainLoop]: an address matched by the inner loop is skipped
    ([continue mainLoop]), any other is appended to [toReturn]. *)
Fixpoint mainLoop (addrs probationAddrs toReturn : list types.Address)
  : list types.Address :=
  match addrs with
  | [] => toReturn
  | addr :: rest =>
      if probationLoop addr probationAddrs
      then mainLoop rest probationAddrs toReturn
      else mainLoop rest probationAddrs (toReturn ++ [addr])
  end.

Definition QueryActiveSequencers (t : Transition) (gasLimit : Z)
  (from : types.Address) : Prog (slice types.Address * option error) :=
  let toReturn : list types.Address := [] in
  '(addrs, err) ← QuerySequencers t gasLimit from;
  match err with
  | Some err => mret (None, Some err)
  | None =>
      parent ← call blockchain_Header;
      now ← call time_Now_Unix;
      let header :=
        {| Header.ParentHash := Header.Hash parent;
           Header.Number := uint64 (Header.Number parent + 1);
           Header.Miner := types.Bytes from;
           Header.Nonce := types.ZeroNonce;
           Header.GasLimit := Header.GasLimit parent;
           Header.Timestamp := uint64 now;
           Header.Hash := types.ZeroHash;
           Header.StateRoot := types.ZeroHash |} in
      r ← call (blockchain_CalculateGasLimit (Header.Number header));
      match r with
      | inl err => mret (None, Some err)
      | inr probationGasLimit =>
          r ← call (executor_BeginTxn (Header.StateRoot parent) header from);
          match r with
          | inl err => mret (None, Some err)
          | inr transition =>
              '(probationAddrs, err) ←
                QuerySequencersInProbation transition probationGasLimit from;
              match err with
              | Some err => mret (None, Some err)
              | None =>
                  mret (Some (mainLoop (elems addrs) (elems probationAddrs)
                                toReturn), None)
              end
          end
      end
  end.

Definition QueryParticipantBalance (t : Transition) (gasLimit : Z)
  (from addr : types.Address) : Prog (option Z * option error) :=
  match StakingABI_Methods !! "GetCurrentAccountStakedAmount" with
  | None =>
      mret (None,
        Some "GetCurrentAccountStakedAmount method doesn't exist in Staking contract ABI")
  | Some method =>
      let selector := abi.ID method in
      match abi.Inputs_Encode method
              (abi.Map [("addr", abi.Bytes (types.Bytes addr))]) with
      | inl encodeErr => mret (None, Some encodeErr)
      | inr encodedInput =>
          nonce ← call (Transition_GetNonce t from);
          r ← call (Transition_Apply t
            {| Transaction.From := from;
               Transaction.To := Some AddrStakingContract;
               Transaction.Value := 0;
               Transaction.Input := selector ++ encodedInput;
               Transaction.GasPrice := 0;
               Transaction.Gas := gasLimit;
               Transaction.Nonce := nonce |});
          match r with
          | inl err => mret (None, Some err)
          | inr res =>
              if ExecutionResult.Failed res
              then mret (None, ExecutionResult.Err res)
              else mret (Some (SetBytes (ExecutionResult.ReturnValue res)), None)
          end
      end
  end.

Definition QueryParticipantTotalStakedAmount (t : Transition) (gasLimit : Z)
  (from : types.Address) : Prog (option Z * option error) :=
  match StakingABI_Methods !! "GetCurrentStakedAmount" with
  | None =>
      mret (None,
        Some "GetCurrentStakedAmount method doesn't exist in Staking contract ABI")
  | Some method =>
      let selector := abi.ID method in
      nonce ← call (Transition_GetNonce t from);
      r ← call (Transition_Apply t
        {| Transaction.From := from;
           Transaction.To := Some AddrStakingContract;
           Transaction.Value := 0;
           Transaction.Input := selector;
           Transaction.GasPrice := 0;
           Transaction.Gas := gasLimit;
           Transaction.Nonce := nonce |});
      match r with
      | inl err => mret (None, Some err)
      | inr res =>
          if ExecutionResult.Failed res
          then mret (None, ExecutionResult.Err res)
          else mret (Some (SetBytes (ExecutionResult.ReturnValue res)), None)
      end
  end.

End Queries.

(** ** [DumbActiveParticipants] *)
Module DumbActiveParticipants.
Section Methods.
Context {ext : Externals}.

Definition Get (nodeType : NodeType)
  : Prog (slice types.Address * option error) := mret (None, None).

Definition Contains (_ : types.Address) (nodeType : NodeType)
  : Prog (bool * option error) := mret (true, None).

Definition GetBalance (_ : types.Address)
  : Prog (option Z * option error) := mret (None, None).

Definition GetTotalStakedAmount
  : Prog (option Z * option error) := mret (None, None).

Definition InProbation (_ : types.Address)
  : Prog (bool * option error) := mret (true, None).

End Methods.
End DumbActiveParticipants.

(** ** [activeParticipantsQuerier]

    The receiver only holds the handles of the chain, the executor and
    the logger; calls through them are the events.  The text of a log
    line is kept without its formatted arguments. *)
Module activeParticipantsQuerier.
Section Methods.
Context {ext : Externals}.

Definition Get (nodeType : NodeType)
  : Prog (slice types.Address * option error) :=
  parent ← call blockchain_Header;
  let minerAddress := types.BytesToAddress (Header.Miner parent) in
  now ← call time_Now_Unix;
  let header :=
    {| Header.ParentHash := Header.Hash parent;
       Header.Number := uint64 (Header.Number parent + 1);
       Header.Miner := types.Bytes minerAddress;
       Header.Nonce := types.ZeroNonce;
       Header.GasLimit := Header.GasLimit parent;
       Header.Timestamp := uint64 now;
       Header.Hash := types.ZeroHash;
       Header.StateRoot := types.ZeroHash |} in
  r ← call (blockchain_CalculateGasLimit (Header.Number header));
  match r with
  | inl err => mret (None, Some err)
  | inr gasLimit =>
      r ← call (executor_BeginTxn (Header.StateRoot parent) header minerAddress);
      match r with
      | inl err => mret (None, Some err)
      | inr transition =>
          if decide (nodeType = Sequencer) then
            '(addrs, err) ← QueryActiveSequencers transition gasLimit minerAddress;
            match err with
            | Some err =>
                _ ← call (logger_Error "failed to query sequencers" err);
                mret (None, Some err)
            | None => mret (addrs, None)
            end
          else if decide (nodeType = WatchTower) then
            '(addrs, err) ← QueryWatchtower transition gasLimit minerAddress;
            match err with
            | Some err =>
                _ ← call (logger_Error "failed to query watchtowers" err);
                mret (None, Some err)
            | None => mret (addrs, None)
            end
          else
            mret (None,
              Some ("failure to query participants due to node type missmatch. '"
                    +:+ nodeType +:+ "' is not node type"))
      end
  end.

(** The [range] loop of [Contains]: is some element equal to [addr]? *)
Fixpoint containsLoop (addrs : list types.Address) (addr : types.Address)
  : bool :=
  match addrs with
  | [] => false
  | a :: rest => if decide (a = addr) then true else containsLoop rest addr
  end.

Definition Contains (addr : types.Address) (nodeType : NodeType)
  : Prog (bool * option error) :=
  '(addrs, err) ← Get nodeType;
  match err with
  | Some err => mret (false, Some err)
  | None =>
      if containsLoop (elems addrs) addr then
        _ ← call (logger_Debug "Stake discovered no need to stake the %s.");
        mret (true, None)
      else
        _ ← call (logger_Debug "Staking contract address discovery information");
        _ ← call (logger_Debug
                    "Stake not discovered for '%s'. Need to stake the %s.");
        mret (false, None)
  end.

(** The [range] loop of [InProbation], on the byte slices. *)
Fixpoint inProbationLoop (probationAddrs : list types.Address)
  (address : types.Address) : bool :=
  match probationAddrs with
  | [] => false
  | probationAddr :: rest =>
      if decide (types.Bytes probationAddr = types.Bytes address)
      then true
      else inProbationLoop rest address
  end.

Definition InProbation (address : types.Address)
  : Prog (bool * option error) :=
  parent ← call blockchain_Header;
  let minerAddress := types.BytesToAddress (Header.Miner parent) in
  now ← call time_Now_Unix;
  let header :=
    {| Header.ParentHash := Header.Hash parent;
       Header.Number := uint64 (Header.Number parent + 1);
       Header.Miner := types.Bytes minerAddress;
       Header.Nonce := types.ZeroNonce;
       Header.GasLimit := Header.GasLimit parent;
       Header.Timestamp := uint64 now;
       Header.Hash := types.ZeroHash;
       Header.StateRoot := types.ZeroHash |} in
  r ← call (blockchain_CalculateGasLimit (Header.Number header));
  match r with
  | inl err => mret (false, Some err)
  | inr gasLimit =>
      r ← call (executor_BeginTxn (Header.StateRoot parent) header minerAddress);
      match r with
      | inl err => mret (false, Some err)
      | inr transition =>
          '(probationAddrs, err) ←
            QuerySequencersInProbation transition gasLimit minerAddress;
          match err with
          | Some err => mret (false, Some err)
          | None => mret (inProbationLoop (elems probationAddrs) address, None)
          end
      end
  end.

Definition GetBalance (address : types.Address)
  : Prog (option Z * option error) :=
  parent ← call blockchain_Header;
  let minerAddress := types.BytesToAddress (Header.Miner parent) in
  now ← call time_Now_Unix;
  let header :=
    {| Header.ParentHash := Header.Hash parent;
       Header.Number := uint64 (Header.Number parent + 1);
       Header.Miner := types.Bytes minerAddress;
       Header.Nonce := types.ZeroNonce;
       Header.GasLimit := Header.GasLimit parent;
       Header.Timestamp := uint64 now;
       Header.Hash := types.ZeroHash;
       Header.StateRoot := types.ZeroHash |} in
  r ← call (blockchain_CalculateGasLimit (Header.Number header));
  match r with
  | inl err => mret (None, Some err)
  | inr gasLimit =>
      r ← call (executor_BeginTxn (Header.StateRoot parent) header minerAddress);
      match r with
      | inl err => mret (None, Some err)
      | inr transition =>
          '(balance, err) ←
            QueryParticipantBalance transition gasLimit minerAddress address;
          match err with
          | Some err => mret (None, Some err)
          | None => mret (balance, None)
          end
      end
  end.

Definition GetTotalStakedAmount : Prog (option Z * option error) :=
  parent ← call blockchain_Header;
  let minerAddress := types.BytesToAddress (Header.Miner parent) in
  now ← call time_Now_Unix;
  let header :=
    {| Header.ParentHash := Header.Hash parent;
       Header.Number := uint64 (Header.Number parent + 1);
       Header.Miner := types.Bytes minerAddress;
       Header.Nonce := types.ZeroNonce;
       Header.GasLimit := Header.GasLimit parent;
       Header.Timestamp := uint64 now;
       Header.Hash := types.ZeroHash;
       Header.StateRoot := types.ZeroHash |} in
  r ← call (blockchain_CalculateGasLimit (Header.Number header));
  match r with
  | inl err => mret (None, Some err)
  | inr gasLimit =>
      r ← call (executor_BeginTxn (Header.StateRoot parent) header minerAddress);
      match r with
      | inl err => mret (None, Some err)
      | inr transition =>
          '(balance, err) ←
            QueryParticipantTotalStakedAmount transition gasLimit minerAddress;
          match err with
          | Some err => mret (None, Some err)
          | None => mret (balance, None)
          end
      end
  end.

End Methods.
End activeParticipantsQuerier.

(** The two implementations as interface values: a
    [&DumbActiveParticipants{}], and what [NewActiveParticipantsQuerier]
    returns. *)
Definition dumbActiveParticipants {ext : Externals} : ActiveParticipants :=
  {| Get := DumbActiveParticipants.Get;
     Contains := DumbActiveParticipants.Contains;
     InProbation := DumbActiveParticipants.InProbation;
     GetBalance := DumbActiveParticipants.GetBalance;
     GetTotalStakedAmount := DumbActiveParticipants.GetTotalStakedAmount |}.

Definition NewActiveParticipantsQuerier {ext : Externals} : ActiveParticipants :=
  {| Get := activeParticipantsQuerier.Get;
     Contains := activeParticipantsQuerier.Contains;
     InProbation := activeParticipantsQuerier.InProbation;
     GetBalance := activeParticipantsQuerier.GetBalance;
     GetTotalStakedAmount := activeParticipantsQuerier.GetTotalStakedAmount |}.

(** ** A quiescent world

    One head, one contract state: the collaborators are functions of
    their arguments.  Only the clock moves; the handler state counts the
    readings taken so far. *)
Record World {ext : Externals} := {
  chain_head : Header.t;
  clock : nat → Z;
  CalculateGasLimit : Z → error + Z;
  BeginTxn : types.Hash → Header.t → types.Address → error + Transition;
  GetNonce : Transition → types.Address → Z;
  Apply : Transition → Transaction.t → error + ExecutionResult.t
}.

Definition world_handler {ext : Externals} (w : World) : Handler nat :=
  λ X e,
    match e in Event X return nat → X * nat with
    | blockchain_Header => λ n, (chain_head w, n)
    | blockchain_CalculateGasLimit number => λ n, (CalculateGasLimit w number, n)
    | time_Now_Unix => λ n, (clock w n, S n)
    | executor_BeginTxn root header coinbase => λ n,
        (BeginTxn w root header coinbase, n)
    | Transition_GetNonce t addr => λ n, (GetNonce w t addr, n)
    | Transition_Apply t msg => λ n, (Apply w t msg, n)
    | logger_Error _ _ => λ n, ((), n)
    | logger_Debug _ => λ n, ((), n)
    end.

(** The header every operation builds on top of [parent] when the clock
    reads [now]. *)
Definition nextHeader (parent : Header.t) (now : Z) : Header.t :=
  {| Header.ParentHash := Header.Hash parent;
     Header.Number := uint64 (Header.Number parent + 1);
     Header.Miner := types.BytesToAddress (Header.Miner parent);
     Header.Nonce := types.ZeroNonce;
     Header.GasLimit := Header.GasLimit parent;
     Header.Timestamp := uint64 now;
     Header.Hash := types.ZeroHash;
     Header.StateRoot := types.ZeroHash |}.

(** The read-only transaction of a query. *)
Definition queryTx {ext : Externals} (from : types.Address) (input : list byte)
  (gasLimit nonce : Z) : Transaction.t :=
  {| Transaction.From := from;
     Transaction.To := Some AddrStakingContract;
     Transaction.Value := 0;
     Transaction.Input := input;
     Transaction.GasPrice := 0;
     Transaction.Gas := gasLimit;
     Transaction.Nonce := nonce |}.

(** Probation exclusion as the specification words it: the addresses of
    the role set that are not in the probation set, in the role set's
    order. *)
Definition exclude_probation (R P : list types.Address) : list types.Address :=
  filter (λ a, a ∉ P) R.

(** An unsigned integer as [n] big-endian bytes. *)
Definition byte_of_Z (z : Z) : byte :=
  default x00 (Byte.of_N (Z.to_N (z mod 256))).

Fixpoint big_endian (n : nat) (V : Z) : list byte :=
  match n with
  | O => []
  | S n' => big_endian n' (V / 256) ++ [byte_of_Z V]
  end.

(** ** Notions the properties are stated with *)

(** The error [Get] makes up for a node type it does not know. *)
Definition unsupportedNodeType (nodeType : NodeType) : error :=
  "failure to query participants due to node type missmatch. '"
  +:+ nodeType +:+ "' is not node type".

Section Notions.
Context {ext : Externals}.

Definition final {S A} (h : Handler S) (p : Prog A) (s : S) : S :=
  (interp h p s).1.2.

(** An outcome fails closed when an error reported by any call of the
    run is the error returned, together with the nil value [nil], and
    an error never comes with a value. *)
Definition fails_closed {V} (nil : V) (out : V * option error)
  (tr : list Call) : Prop :=
  (∀ e, e ∈ omap call_error tr → out = (nil, Some e)) ∧
  (∀ e, out.2 = Some e → out.1 = nil).

(** The opening of every operation: the head is read, then the clock,
    then the gas limit for the next number is computed, and if that
    succeeds a transition is opened at the head's state root with the
    header built from these. *)
Definition opens_context (tr : list Call) : Prop :=
  ∃ parent now r rest,
    tr = mkCall blockchain_Header parent
         :: mkCall time_Now_Unix now
         :: mkCall (blockchain_CalculateGasLimit
                      (uint64 (Header.Number parent + 1))) r
         :: rest ∧
    match r with
    | inl _ => rest = []
    | inr _ =>
        ∃ rb rest',
          rest = mkCall (executor_BeginTxn (Header.StateRoot parent)
                   {| Header.ParentHash := Header.Hash parent;
                      Header.Number := uint64 (Header.Number parent + 1);
                      Header.Miner := types.BytesToAddress (Header.Miner parent);
                      Header.Nonce := types.ZeroNonce;
                      Header.GasLimit := Header.GasLimit parent;
                      Header.Timestamp := uint64 now;
                      Header.Hash := types.ZeroHash;
                      Header.StateRoot := types.ZeroHash |}
                   (types.BytesToAddress (Header.Miner parent))) rb
                 :: rest'
    end.

(** The headers transitions were opened with, and the gas limits the
    calculator returned, in a run. *)
Definition begin_headers (tr : list Call) : list Header.t :=
  omap (λ c, match call_event c with
             | executor_BeginTxn _ header _ => Some header
             | _ => None
             end) tr.

Definition calculated_gas_limits (tr : list Call) : list Z :=
  omap (λ c, match c with
             | mkCall e x =>
                 match e in Event X return X → option Z with
                 | blockchain_CalculateGasLimit _ => λ r,
                     match r with inr gasLimit => Some gasLimit | inl _ => None end
                 | _ => λ _, None
                 end x
             end) tr.

(** Programs that never read the clock. *)
Fixpoint clock_free {A} (p : Prog A) : Prop :=
  match p with
  | Ret _ => True
  | Vis e k =>
      match e with time_Now_Unix => False | _ => True end ∧
      ∀ x, clock_free (k x)
  end.

(** In a quiescent world a clock-free program has one result and one
    trace, whatever the clock. *)
Definition query_result {A} (w : World) (p : Prog A) : A :=
  result (world_handler w) p 0%nat.

Definition query_trace {A} (w : World) (p : Prog A) : list Call :=
  trace (world_handler w) p 0%nat.

(** The four calls that open a context in world [w] at the [k]-th
    reading of the clock, when they succeed with [gasLimit] and [t]. *)
Definition context_calls (w : World) (k : nat) (gasLimit : Z) (t : Transition)
  : list Call :=
  let parent := chain_head w in
  [ mkCall blockchain_Header parent;
    mkCall time_Now_Unix (clock w k);
    mkCall (blockchain_CalculateGasLimit (uint64 (Header.Number parent + 1)))
      (inr gasLimit);
    mkCall (executor_BeginTxn (Header.StateRoot parent)
              (nextHeader parent (clock w k))
              (types.BytesToAddress (Header.Miner parent)))
      (inr t) ].

(** A transition, if the call opens one, is opened at the head of [w]:
    at its state root, for its miner, with the header built on it at
    some reading of the clock. *)
Definition opened_at_head (w : World) (c : Call) : Prop :=
  match call_event c with
  | executor_BeginTxn parentRoot header coinbase =>
      parentRoot = Header.StateRoot (chain_head w) ∧
      coinbase = types.BytesToAddress (Header.Miner (chain_head w)) ∧
      ∃ k, header = nextHeader (chain_head w) (clock w k)
  | _ => True
  end.

(** The two calls of a query on [t]: the nonce, then the transaction. *)
Definition query_calls (w : World) (t : Transition) (from : types.Address)
  (input : list byte) (gasLimit : Z) (res : ExecutionResult.t) : list Call :=
  [ mkCall (Transition_GetNonce t from) (GetNonce w t from);
    mkCall (Transition_Apply t (queryTx from input gasLimit (GetNonce w t from)))
      (inr res) ].

(** The same world under another clock. *)
Definition with_clock (w : World) (c : nat → Z) : World :=
  {| chain_head := chain_head w;
     clock := c;
     CalculateGasLimit := CalculateGasLimit w;
     BeginTxn := BeginTxn w;
     GetNonce := GetNonce w;
     Apply := Apply w |}.

Definition with_timestamp (header : Header.t) (ts : Z) : Header.t :=
  {| Header.ParentHash := Header.ParentHash header;
     Header.Number := Header.Number header;
     Header.Miner := Header.Miner header;
     Header.Nonce := Header.Nonce header;
     Header.GasLimit := Header.GasLimit header;
     Header.Timestamp := ts;
     Header.Hash := Header.Hash header;
     Header.StateRoot := Header.StateRoot header |}.

(** An engine is blind to the timestamp when transitions opened with
    headers that differ in nothing else are indistinguishable ([sim])
    to the calls the resolver makes on them. *)
Definition timestamp_blind (w : World) (sim : Transition → Transition → Prop)
  : Prop :=
  (∀ root header ts1 ts2 from,
     match BeginTxn w root (with_timestamp header ts1) from,
           BeginTxn w root (with_timestamp header ts2) from with
     | inl e1, inl e2 => e1 = e2
     | inr t1, inr t2 => sim t1 t2
     | _, _ => False
     end) ∧
  (∀ t1 t2 addr, sim t1 t2 → GetNonce w t1 addr = GetNonce w t2 addr) ∧
  (∀ t1 t2 msg, sim t1 t2 → Apply w t1 msg = Apply w t2 msg).

End Notions.

(** ** A concrete setting

    Lower-case hexadecimal rendering of addresses, a five-method table
    whose address lists are coded as concatenated twenty-byte words, and
    an engine that answers from a fixed contract state. *)
Module Scenario.

Definition hex_digit (n : N) : ascii :=
  match n with
  | 0%N => "0" | 1%N => "1" | 2%N => "2" | 3%N => "3" | 4%N => "4"
  | 5%N => "5" | 6%N => "6" | 7%N => "7" | 8%N => "8" | 9%N => "9"
  | 10%N => "a" | 11%N => "b" | 12%N => "c" | 13%N => "d" | 14%N => "e"
  | _ => "f"
  end%char.

Definition unhex_digit (c : ascii) : N :=
  let n := N_of_ascii c in
  if (n <? 58)%N then (n - 48)%N else (n - 87)%N.

Fixpoint hex (l : list byte) : string :=
  match l with
  | [] => EmptyString
  | b :: l' =>
      String (hex_digit (Byte.to_N b / 16))
        (String (hex_digit (Byte.to_N b mod 16)) (hex l'))
  end.

Fixpoint unhex (s : string) : list byte :=
  match s with
  | String hi (String lo s') =>
      default x00 (Byte.of_N (unhex_digit hi * 16 + unhex_digit lo)) :: unhex s'
  | _ => []
  end.

Definition EncodeToHex (l : list byte) : string := "0x" +:+ hex l.

(** Twenty-byte words. *)
Fixpoint words (n : nat) (buf : list byte) : list (list byte) :=
  match n with
  | O => []
  | S n' => take 20 buf :: words n' (drop 20 buf)
  end.

Definition decodeAddresses (buf : list byte) : error + abi.value :=
  if decide (length buf `mod` 20 = 0)%nat
  then inr (abi.Map [("0", abi.Addresses (words (length buf / 20) buf))])
  else inl "abi: cannot decode address list".

Definition decodeUint (buf : list byte) : error + abi.value :=
  inr (abi.Map [("0", abi.BigInt (SetBytes buf))]).

Definition encodeAddr (v : abi.value) : error + list byte :=
  match v with
  | abi.Map m =>
      match abi.index m "addr" with
      | abi.Bytes b => inr (replicate 12 x00 ++ b)
      | _ => inl "abi: cannot encode argument"
      end
  | _ => inl "abi: cannot encode argument"
  end.

Definition encodeNone (_ : abi.value) : error + list byte := inr [].

Definition selSequencers : list byte := [x01; x00; x00; x00].
Definition selProbation : list byte := [x02; x00; x00; x00].
Definition selWatchtowers : list byte := [x03; x00; x00; x00].
Definition selAccountStaked : list byte := [x04; x00; x00; x00].
Definition selStaked : list byte := [x05; x00; x00; x00].
Definition selParticipants : list byte := [x06; x00; x00; x00].

Definition methods : gmap string abi.Method :=
  <["GetCurrentSequencers" := abi.mkMethod selSequencers encodeNone decodeAddresses]>
  (<["GetCurrentSequencersInProbation" :=
       abi.mkMethod selProbation encodeNone decodeAddresses]>
  (<["GetCurrentWatchtowers" :=
       abi.mkMethod selWatchtowers encodeNone decodeAddresses]>
  (<["GetCurrentAccountStakedAmount" :=
       abi.mkMethod selAccountStaked encodeAddr decodeUint]>
  (<["GetCurrentStakedAmount" := abi.mkMethod selStaked encodeNone decodeUint]>
  (<["GetCurrentParticipants" :=
       abi.mkMethod selParticipants encodeNone decodeAddresses]> ∅))))).

(** An open transition remembers the header it was opened with. *)
#[export] Instance ext : Externals := {|
  Sequencer := "sequencer";
  WatchTower := "watchtower";
  AddrStakingContract := replicate 19 x00 ++ [x99];
  StakingABI_Methods := methods;
  Address_String := EncodeToHex;
  Transition := Header.t
|}.

(** The contract state the engine answers from. *)
Record Contract := {
  sequencers : list types.Address;
  probation : list types.Address;
  watchtowers : list types.Address;
  staked : types.Address → Z;
  totalStaked : Z
}.

Definition answer (c : Contract) (input : list byte) : ExecutionResult.t :=
  let sel := take 4 input in
  if decide (sel = selSequencers) then
    ExecutionResult.mk (concat (sequencers c)) None
  else if decide (sel = selProbation) then
    ExecutionResult.mk (concat (probation c)) None
  else if decide (sel = selWatchtowers) then
    ExecutionResult.mk (concat (watchtowers c)) None
  else if decide (sel = selAccountStaked) then
    ExecutionResult.mk (big_endian 32 (staked c (drop 16 input))) None
  else if decide (sel = selStaked) then
    ExecutionResult.mk (big_endian 32 (totalStaked c)) None
  else ExecutionResult.mk [] (Some "execution reverted").

Definition head : Header.t :=
  {| Header.ParentHash := replicate 32 x06;
     Header.Number := 7;
     Header.Miner := replicate 20 xaa;
     Header.Nonce := types.ZeroNonce;
     Header.GasLimit := 5000;
     Header.Timestamp := 1000;
     Header.Hash := replicate 32 x07;
     Header.StateRoot := replicate 32 x17 |}.

Definition world (c : Contract) (clk : nat → Z) : World := {|
  chain_head := head;
  clock := clk;
  CalculateGasLimit := λ _, inr 8000000;
  BeginTxn := λ _ header _, inr header;
  GetNonce := λ _ _, 0;
  Apply := λ _ msg, inr (answer c (Transaction.Input msg))
|}.

Definition A : types.Address := replicate 20 x0a.
Definition B : types.Address := replicate 20 x0b.
Definition C : types.Address := replicate 20 x0c.

Definition contract (R P W : list types.Address) : Contract := {|
  sequencers := R;
  probation := P;
  watchtowers := W;
  staked := λ a, if decide (a = A) then 2 ^ 255 + 12345 else 0;
  totalStaked := 2 ^ 256 - 1
|}.

Definition clk (n : nat) : Z := 1700000000 + Z.of_nat n.

(** The same engine on a chain whose history is incomplete: the gas
    limit cannot be computed. *)
Definition no_history_world (c : Contract) : World := {|
  chain_head := head;
  clock := clk;
  CalculateGasLimit := λ _, inl "gas limit: missing history";
  BeginTxn := λ _ header _, inr header;
  GetNonce := λ _ _, 0;
  Apply := λ _ msg, inr (answer c (Transaction.Input msg))
|}.

(** An engine that runs the contract with the block timestamp of the
    header the transition was opened with, and a contract whose
    probation of [B] ends at time 1500. *)
Definition contract_at (ts : Z) : Contract :=
  contract [A; B; C] (if bool_decide (ts < 1500) then [B] else []) [].

Definition timed_world : World := {|
  chain_head := head;
  clock := clk;
  CalculateGasLimit := λ _, inr 8000000;
  BeginTxn := λ _ header _, inr header;
  GetNonce := λ _ _, 0;
  Apply := λ t msg,
    inr (answer (contract_at (Header.Timestamp t)) (Transaction.Input msg))
|}.

(** The world of the examples: [B] is a sequencer on probation and also
    a watchtower. *)
Definition w0 : World := world (contract [A; B; C] [B] [B; C]) clk.

(** The transition opened at the [k]-th reading of the clock. *)
Definition opened (k : nat) : Header.t := nextHeader head (clk k).


End Scenario.

(** ** Traces of the resolver: what a run submitted *)
Section Traces.
Context {ext : Externals}.

(** The transactions applied in a run, each with the transition it was
    applied to. *)
Definition applied (tr : list Call) : list (Transition * Transaction.t) :=
  omap (λ c, match call_event c with
             | Transition_Apply t msg => Some (t, msg)
             | _ => None
             end) tr.

(** The nonces read in a run: transition, account, answer. *)
Definition nonce_reads (tr : list Call)
  : list (Transition * types.Address * Z) :=
  omap (λ c, match c with
             | mkCall e x =>
                 match e in Event X
                       return X → option (Transition * types.Address * Z) with
                 | Transition_GetNonce t addr => λ nonce, Some (t, addr, nonce)
                 | _ => λ _, None
                 end x
             end) tr.

(** The transitions the engine opened in a run. *)
Definition opened_transitions (tr : list Call) : list Transition :=
  omap (λ c, match c with
             | mkCall e x =>
                 match e in Event X return X → option Transition with
                 | executor_BeginTxn _ _ _ => λ r,
                     match r with inr t => Some t | inl _ => None end
                 | _ => λ _, None
                 end x
             end) tr.

(** The heads the chain reported in a run. *)
Definition heads (tr : list Call) : list Header.t :=
  omap (λ c, match c with
             | mkCall e x =>
                 match e in Event X return X → option Header.t with
                 | blockchain_Header => λ parent, Some parent
                 | _ => λ _, None
                 end x
             end) tr.

(** The selector the table gives a method name, if it has the method. *)
Definition methodID (name : string) : option (list byte) :=
  abi.ID <$> StakingABI_Methods !! name.

(** Every transaction of the run is a read-only call to the staking
    contract: no value, no gas price, sent by the twenty-byte miner
    address of the head first read, with a gas limit the calculator
    returned in this run. *)
Definition read_only_calls (tr : list Call) : Prop :=
  Forall (λ tm : Transition * Transaction.t,
            Transaction.Value tm.2 = 0 ∧
            Transaction.GasPrice tm.2 = 0 ∧
            Transaction.To tm.2 = Some AddrStakingContract ∧
            Transaction.Gas tm.2 ∈ calculated_gas_limits tr ∧
            length (Transaction.From tm.2) = 20%nat ∧
            Some (Transaction.From tm.2)
            = (λ parent, types.BytesToAddress (Header.Miner parent))
                <$> heads tr !! 0%nat)
         (applied tr).

(** Every transaction carries the nonce that was read, for its sender
    and on its transition, right before it; nonces are read for nothing
    else. *)
Definition nonce_discipline (tr : list Call) : Prop :=
  (λ tm : Transition * Transaction.t,
     (tm.1, Transaction.From tm.2, Transaction.Nonce tm.2)) <$> applied tr
  = nonce_reads tr.

(** Transactions go to the transitions of the run in the order these
    were opened, one each. *)
Definition one_per_transition (tr : list Call) : Prop :=
  (fst <$> applied tr) `prefix_of` opened_transitions tr.

(** The inputs of the transactions of a run. *)
Definition inputs (tr : list Call) : list (list byte) :=
  (λ tm : Transition * Transaction.t, Transaction.Input tm.2) <$> applied tr.

(** The methods an operation may call, in the order it calls them. *)
Definition methods_of_Get (nodeType : NodeType) : list string :=
  if decide (nodeType = Sequencer)
  then ["GetCurrentSequencers"; "GetCurrentSequencersInProbation"]
  else if decide (nodeType = WatchTower)
  then ["GetCurrentWatchtowers"]
  else [].

(** The inputs of a run are selectors of the methods [names], in that
    order, as far as the run got. *)
Definition calls_methods (names : list string) (tr : list Call) : Prop :=
  (Some <$> inputs tr) `prefix_of` (methodID <$> names).

(** The four together, and no more transitions opened than there are
    methods to call (one, when there is none). *)
Definition query_protocol (names : list string) (tr : list Call) : Prop :=
  read_only_calls tr ∧ nonce_discipline tr ∧ one_per_transition tr ∧
  calls_methods names tr ∧
  (length (opened_transitions tr) ≤ Nat.max 1 (length names))%nat.

(** The one transaction [GetBalance] may submit: the selector followed
    by the encoded address. *)
Definition calls_balance_method (address : types.Address) (tr : list Call)
  : Prop :=
  inputs tr = [] ∨
  ∃ m encodedInput,
    StakingABI_Methods !! "GetCurrentAccountStakedAmount" = Some m ∧
    abi.Inputs_Encode m (abi.Map [("addr", abi.Bytes address)])
      = inr encodedInput ∧
    inputs tr = [abi.ID m ++ encodedInput].

End Traces.

(** ** Programs over any family of calls

    The two packages below talk to collaborators of their own; their
    programs are built like [Prog], over the calls of each package. *)
Module free.
Section Free.
Context {E : Type → Type}.

Inductive t (A : Type) : Type :=
| Ret (a : A)
| Vis {X : Type} (e : E X) (k : X → t A).
#[global] Arguments Ret {A} a.
#[global] Arguments Vis {A X} e k.

Fixpoint bind {A B} (p : t A) (f : A → t B) : t B :=
  match p with
  | Ret a => f a
  | Vis e k => Vis e (λ x, bind (k x) f)
  end.

Definition call {X} (e : E X) : t X := Vis e Ret.

Record Call := mkCall {
  call_type : Type;
  call_event : E call_type;
  call_answer : call_type
}.
#[global] Arguments mkCall {call_type} call_event call_answer.

Definition Handler (S : Type) := ∀ X, E X → S → X * S.

Fixpoint interp {S A} (h : Handler S) (p : t A) (s : S) : A * S * list Call :=
  match p with
  | Ret a => (a, s, [])
  | Vis e k =>
      let '(x, s1) := h _ e s in
      let '(a, s2, tr) := interp h (k x) s1 in
      (a, s2, mkCall e x :: tr)
  end.

Definition result {S A} (h : Handler S) (p : t A) (s : S) : A :=
  (interp h p s).1.1.

Definition trace {S A} (h : Handler S) (p : t A) (s : S) : list Call :=
  (interp h p s).2.

End Free.
#[global] Arguments t : clear implicits.
#[global] Arguments Call : clear implicits.
#[global] Arguments Handler : clear implicits.
End free.

#[global] Instance free_ret {E} : MRet (free.t E) := @free.Ret E.
#[global] Instance free_bind {E} : MBind (free.t E) := λ A B f p, free.bind p f.

(** ** Package [avail]: accounts on the data-availability chain *)
Module avail.

(** 1 AVL == 10^18 Avail fractions. *)
Definition AVL : Z := 1000000000000000000.

(** [signature.KeyringPair] *)
Module KeyringPair.
Record t := mk {
  URI : string;
  Address : string;
  PublicKey : list byte
}.
(** [signature.KeyringPair{}] *)
Definition zero : t := mk "" "" [].
End KeyringPair.

(** [types.AccountInfo], with the two fields read here: the nonce, a
    [U32], and the free balance [Data.Free], a [U128]. *)
Module AccountInfo.
Record t := mk {
  Nonce : Z;
  Free : Z
}.
End AccountInfo.

(** [types.ExtrinsicStatus], with the flags the watch loop reads. *)
Module ExtrinsicStatus.
Record t := mk {
  IsFinalized : bool;
  IsInBlock : bool;
  IsDropped : bool;
  IsInvalid : bool
}.
End ExtrinsicStatus.

Module RuntimeVersion.
Record t := mk {
  SpecVersion : Z;
  TransactionVersion : Z
}.
End RuntimeVersion.

(** [types.SignatureOptions]; the era is its [IsMortalEra] flag. *)
Module SignatureOptions.
Record t := mk {
  BlockHash : list byte;
  IsMortalEra : bool;
  GenesisHash : list byte;
  Nonce : Z;
  SpecVersion : Z;
  Tip : Z;
  AppID : Z;
  TransactionVersion : Z
}.
End SignatureOptions.

(** The arguments given to [types.NewCall]. *)
Inductive CallArg :=
| NewMultiAddressFromAccountID (publicKey : list byte)
| NewUCompactFromUInt (n : Z).

(** What the package takes from its libraries: their types, and the
    functions that touch nothing outside their arguments. *)
Class Externals := {
  API : Type;
  Metadata : Type;
  StorageKey : Type;
  Call : Type;
  Extrinsic : Type;
  Subscription : Type;
  CreateStorageKey :
    Metadata → string → string → list (list byte) → error + StorageKey;
  NewCall : Metadata → string → list CallArg → error + Call;
  NewExtrinsic : Call → Extrinsic;
  NewMnemonic : list byte → error + string;
  KeyringPairFromSecret : string → Z → error + KeyringPair.t;
  TestKeyringPairAlice : KeyringPair.t;
  (** [big.Int.Uint64] *)
  Uint64 : Z → Z;
  (** the [%#v] rendering of a status *)
  GoString : ExtrinsicStatus.t → string
}.

(** [big.Int.Uint64] gives a [uint64], and the number itself when it is
    one. *)
Class ExternalsOK (ext : Externals) : Prop := {
  Uint64_range : ∀ x, 0 ≤ Uint64 x < 2 ^ 64;
  Uint64_exact : ∀ x, 0 ≤ x < 2 ^ 64 → Uint64 x = x
}.

Section Package.
Context {ext : Externals}.

(** The calls that leave the process: files, randomness, the node's
    RPC, signing, and the subscription.  [GetStorageLatest] answers
    with its two results, [ok] and [err], and with what it left in the
    target it was given; the [select] of the watch loop answers with a
    status from the one channel or with what came from the other. *)
Inductive Event : Type → Type :=
| os_ReadFile (path : string) : Event (error + string)
| bip39_NewEntropy (bitSize : Z) : Event (error + list byte)
| Client_instance : Event API
| State_GetMetadataLatest (api : API) : Event (error + Metadata)
| State_GetStorageLatest (api : API) (key : StorageKey)
    : Event (bool * option error * AccountInfo.t)
| Chain_GetBlockHash (api : API) (blockNumber : Z) : Event (error + list byte)
| State_GetRuntimeVersionLatest (api : API) : Event (error + RuntimeVersion.t)
| Extrinsic_Sign (e : Extrinsic) (signer : KeyringPair.t)
    (o : SignatureOptions.t) : Event (error + Extrinsic)
| Author_SubmitAndWatchExtrinsic (api : API) (e : Extrinsic)
    : Event (error + Subscription)
| Subscription_select (sub : Subscription)
    : Event (ExtrinsicStatus.t + option error)
| Subscription_Unsubscribe (sub : Subscription) : Event ().

Definition Prog := free.t Event.

Definition NewAccount : Prog (KeyringPair.t * option error) :=
  r ← free.call (bip39_NewEntropy 128);
  match r with
  | inl err => mret (KeyringPair.zero, Some err)
  | inr entropy =>
      match NewMnemonic entropy with
      | inl err => mret (KeyringPair.zero, Some err)
      | inr mnemonic =>
          match KeyringPairFromSecret mnemonic 42 with
          | inl err => mret (KeyringPair.zero, Some err)
          | inr keyPair => mret (keyPair, None)
          end
      end
  end.

Definition NewAccountFromMnemonic (mnemonic : string)
  : KeyringPair.t * option error :=
  match KeyringPairFromSecret mnemonic 42 with
  | inl err => (KeyringPair.zero, Some err)
  | inr keyPair => (keyPair, None)
  end.

Definition AccountExistsFromMnemonic (path : string)
  : Prog (bool * option error) :=
  r ← free.call (os_ReadFile path);
  match r with
  | inl err =>
      mret (false, Some ("failure to read account file '" +:+ err +:+ "'"))
  | inr accountBytes =>
      let '(account, err) := NewAccountFromMnemonic accountBytes in
      match err with
      | Some err => mret (false, Some err)
      | None =>
          api ← free.call Client_instance;
          r ← free.call (State_GetMetadataLatest api);
          match r with
          | inl err => mret (false, Some err)
          | inr meta =>
              match CreateStorageKey meta "System" "Account"
                      [KeyringPair.PublicKey account; []] with
              | inl err => mret (false, Some err)
              | inr key =>
                  r ← free.call (State_GetStorageLatest api key);
                  let '(ok, err, _) := r in
                  mret (ok, err)
              end
          end
      end
  end.

(** The [for]/[select] loop of [DepositBalance], for at most [fuel]
    rounds: [None] when it is still waiting after them. *)
Fixpoint watch (fuel : nat) (sub : Subscription) : Prog (option (option error)) :=
  match fuel with
  | O => mret None
  | S fuel' =>
      r ← free.call (Subscription_select sub);
      match r with
      | inl status =>
          if ExtrinsicStatus.IsFinalized status then mret (Some None)
          else if ExtrinsicStatus.IsInBlock status then mret (Some None)
          else if ExtrinsicStatus.IsDropped status
                  || ExtrinsicStatus.IsInvalid status
          then mret (Some (Some ("unexpected extrinsic status from Avail: "
                                 +:+ GoString status)))
          else watch fuel' sub
      | inr err => mret (Some err)
      end
  end.

Definition DepositBalance (fuel : nat) (account : KeyringPair.t)
  (amount nonceIncrement : Z) : Prog (option (option error)) :=
  api ← free.call Client_instance;
  r ← free.call (State_GetMetadataLatest api);
  match r with
  | inl err => mret (Some (Some err))
  | inr meta =>
      match NewCall meta "Balances.transfer"
              [NewMultiAddressFromAccountID (KeyringPair.PublicKey account);
               NewUCompactFromUInt amount] with
      | inl err => mret (Some (Some err))
      | inr c =>
          let e := NewExtrinsic c in
          r ← free.call (Chain_GetBlockHash api 0);
          match r with
          | inl err => mret (Some (Some err))
          | inr genesisHash =>
              r ← free.call (State_GetRuntimeVersionLatest api);
              match r with
              | inl err => mret (Some (Some err))
              | inr rv =>
                  match CreateStorageKey meta "System" "Account"
                          [KeyringPair.PublicKey TestKeyringPairAlice; []] with
                  | inl err => mret (Some (Some err))
                  | inr key =>
                      r ← free.call (State_GetStorageLatest api key);
                      let '(ok, err, accountInfo) := r in
                      if bool_decide (err ≠ None) || negb ok
                      then mret (Some err)
                      else
                        let nonce := uint64 (AccountInfo.Nonce accountInfo) in
                        let nonce :=
                          if bool_decide (nonceIncrement > 0)
                          then uint64 (nonce + nonceIncrement)
                          else nonce in
                        let o :=
                          {| SignatureOptions.BlockHash := genesisHash;
                             SignatureOptions.IsMortalEra := false;
                             SignatureOptions.GenesisHash := genesisHash;
                             SignatureOptions.Nonce := nonce;
                             SignatureOptions.SpecVersion :=
                               RuntimeVersion.SpecVersion rv;
                             SignatureOptions.Tip := 0;
                             SignatureOptions.AppID := 0;
                             SignatureOptions.TransactionVersion :=
                               RuntimeVersion.TransactionVersion rv |} in
                        r ← free.call (Extrinsic_Sign e TestKeyringPairAlice o);
                        match r with
                        | inl err => mret (Some (Some err))
                        | inr e =>
                            r ← free.call (Author_SubmitAndWatchExtrinsic api e);
                            match r with
                            | inl err => mret (Some (Some err))
                            | inr sub =>
                                r ← watch fuel sub;
                                match r with
                                | None => mret None
                                | Some err =>
                                    _ ← free.call (Subscription_Unsubscribe sub);
                                    mret (Some err)
                                end
                            end
                        end
                  end
              end
          end
      end
  end.

Definition GetBalance (account : KeyringPair.t) : Prog (option Z * option error) :=
  api ← free.call Client_instance;
  r ← free.call (State_GetMetadataLatest api);
  match r with
  | inl err => mret (None, Some err)
  | inr meta =>
      match CreateStorageKey meta "System" "Account"
              [KeyringPair.PublicKey account; []] with
      | inl err => mret (None, Some err)
      | inr key =>
          r ← free.call (State_GetStorageLatest api key);
          let '(ok, err, accountInfo) := r in
          if bool_decide (err ≠ None) || negb ok
          then mret (None, err)
          else mret (Some (Uint64 (AccountInfo.Free accountInfo) / AVL), None)
      end
  end.

End Package.
End avail.

(** *** What a run of the package did *)
Module avail_trace.
Import avail.
Section Traces.
Context {ext : Externals}.

(** What the storage lookups of a run answered. *)
Definition storage_answers (tr : list (free.Call Event))
  : list (bool * option error * AccountInfo.t) :=
  omap (λ c, match c with
             | free.mkCall e x =>
                 match e in Event X
                       return X → option (bool * option error * AccountInfo.t)
                 with
                 | State_GetStorageLatest _ _ => λ r, Some r
                 | _ => λ _, None
                 end x
             end) tr.

(** The keys looked up. *)
Definition storage_keys (tr : list (free.Call Event)) : list StorageKey :=
  omap (λ c, match free.call_event c with
             | State_GetStorageLatest _ key => Some key
             | _ => None
             end) tr.

(** What was signed: the extrinsic, the signer and the options. *)
Definition signed (tr : list (free.Call Event))
  : list (Extrinsic * KeyringPair.t * SignatureOptions.t) :=
  omap (λ c, match free.call_event c with
             | Extrinsic_Sign e signer o => Some (e, signer, o)
             | _ => None
             end) tr.

(** The extrinsics submitted. *)
Definition submitted (tr : list (free.Call Event)) : list Extrinsic :=
  omap (λ c, match free.call_event c with
             | Author_SubmitAndWatchExtrinsic _ e => Some e
             | _ => None
             end) tr.

(** The subscriptions obtained. *)
Definition subscriptions (tr : list (free.Call Event)) : list Subscription :=
  omap (λ c, match c with
             | free.mkCall e x =>
                 match e in Event X return X → option Subscription with
                 | Author_SubmitAndWatchExtrinsic _ _ => λ r,
                     match r with inr sub => Some sub | inl _ => None end
                 | _ => λ _, None
                 end x
             end) tr.

(** The subscriptions cancelled. *)
Definition unsubscribed (tr : list (free.Call Event)) : list Subscription :=
  omap (λ c, match free.call_event c with
             | Subscription_Unsubscribe sub => Some sub
             | _ => None
             end) tr.

(** What the watch loop received, in order. *)
Definition messages (tr : list (free.Call Event)) : list (ExtrinsicStatus.t + option error) :=
  omap (λ c, match c with
             | free.mkCall e x =>
                 match e in Event X
                       return X → option (ExtrinsicStatus.t + option error) with
                 | Subscription_select _ => λ r, Some r
                 | _ => λ _, None
                 end x
             end) tr.

(** What reading files answered. *)
Definition file_reads (tr : list (free.Call Event)) : list (error + string) :=
  omap (λ c, match c with
             | free.mkCall e x =>
                 match e in Event X return X → option (error + string) with
                 | os_ReadFile _ => λ r, Some r
                 | _ => λ _, None
                 end x
             end) tr.

(** What a received message decides: nothing yet ([None]), or the
    value [DepositBalance] returns. *)
Definition decides (m : ExtrinsicStatus.t + option error) : option (option error) :=
  match m with
  | inl status =>
      if ExtrinsicStatus.IsFinalized status then Some None
      else if ExtrinsicStatus.IsInBlock status then Some None
      else if ExtrinsicStatus.IsDropped status || ExtrinsicStatus.IsInvalid status
      then Some (Some ("unexpected extrinsic status from Avail: "
                       +:+ GoString status))
      else None
  | inr err => Some err
  end.

(** The outcome of watching: the loop returned [r] at the first message
    that decides, or is still waiting after [fuel] undecided ones. *)
Definition watched (fuel : nat) (out : option (option error))
  (msgs : list (ExtrinsicStatus.t + option error)) : Prop :=
  match out with
  | Some r =>
      ∃ before last,
        msgs = before ++ [last] ∧
        Forall (λ m, decides m = None) before ∧
        decides last = Some r ∧
        (length msgs ≤ fuel)%nat
  | None => length msgs = fuel ∧ Forall (λ m, decides m = None) msgs
  end.

(** What one run of [DepositBalance] shows. *)
Definition deposit_run (fuel : nat) (account : KeyringPair.t)
  (amount nonceIncrement : Z) (out : option (option error)) (tr : list (free.Call Event))
  : Prop :=
  (* the signer's account is the one looked up *)
  (∀ key, key ∈ storage_keys tr →
     ∃ meta, CreateStorageKey meta "System" "Account"
               [KeyringPair.PublicKey TestKeyringPairAlice; []] = inr key) ∧
  (* when the lookup fails or finds nothing, its error is the result,
     also when there is none, and nothing is signed or submitted *)
  (∀ ok err info,
     storage_answers tr = [(ok, err, info)] →
     err ≠ None ∨ ok = false →
     out = Some err ∧ signed tr = [] ∧ submitted tr = []) ∧
  (* what is signed, by whom, with which options *)
  (∀ e signer o, (e, signer, o) ∈ signed tr →
     signer = TestKeyringPairAlice ∧
     SignatureOptions.IsMortalEra o = false ∧
     SignatureOptions.Tip o = 0 ∧
     SignatureOptions.AppID o = 0 ∧
     SignatureOptions.BlockHash o = SignatureOptions.GenesisHash o ∧
     (∃ info, storage_answers tr = [(true, None, info)] ∧
              SignatureOptions.Nonce o
              = if bool_decide (nonceIncrement > 0)
                then uint64 (uint64 (AccountInfo.Nonce info) + nonceIncrement)
                else uint64 (AccountInfo.Nonce info)) ∧
     (∃ meta c, NewCall meta "Balances.transfer"
                  [NewMultiAddressFromAccountID (KeyringPair.PublicKey account);
                   NewUCompactFromUInt amount] = inr c ∧
                e = NewExtrinsic c)) ∧
  (* at most one signature, one submission, one subscription *)
  (length (signed tr) ≤ 1)%nat ∧ (length (submitted tr) ≤ 1)%nat ∧
  (length (subscriptions tr) ≤ 1)%nat ∧
  (* without a subscription: a result, nothing received or cancelled *)
  (subscriptions tr = [] →
     out ≠ None ∧ messages tr = [] ∧ unsubscribed tr = []) ∧
  (* with one: the loop decides, and the subscription is cancelled
     exactly when the function returns *)
  (∀ sub, subscriptions tr = [sub] →
     watched fuel out (messages tr) ∧
     unsubscribed tr = match out with Some _ => [sub] | None => [] end).

End Traces.
End avail_trace.

(** ** Package [config]: the addresses of a node's configuration *)
Module config.

(** [config.Telemetry] *)
Module Telemetry.
Record t := mk { PrometheusAddr : string }.
End Telemetry.

(** [config.Network], with the three addresses read here. *)
Module Network.
Record t := mk {
  Libp2pAddr : string;
  NatAddr : string;
  DNSAddr : string
}.
End Network.

(** [config.Config], with the fields read here.  [Telemetry] is a
    pointer the code tests against [nil]; [Network] is a pointer it
    follows without a test, so a configuration here has one. *)
Module Config.
Record t := mk {
  GenesisPath : string;
  SecretsConfigPath : string;
  GRPCAddr : string;
  JSONRPCAddr : string;
  Telemetry : option Telemetry.t;
  Network : Network.t
}.
End Config.

(** [helper.IPBinding] *)
Inductive IPBinding := LocalHostBinding | AllInterfacesBinding.

(** The types of the libraries, and their functions that touch nothing
    outside their arguments: [net.ParseIP], which gives [nil] for a text
    that is no address, and [common.MultiAddrFromDNS].  A library's
    [(value, error)] is the pair it is: a pointer or interface that may
    be [nil], and an error that may be [nil]. *)
Class Externals := {
  Chain : Type;
  TCPAddr : Type;
  IP : Type;
  Multiaddr : Type;
  SecretsManagerConfig : Type;
  net_ParseIP : string → option IP;
  common_MultiAddrFromDNS : string → Z → option Multiaddr * option error
}.

Section Package.
Context {ext : Externals}.

(** Reading the genesis and secrets files, and resolving an address. *)
Inductive Event : Type → Type :=
| chain_Import (path : string) : Event (option Chain * option error)
| helper_ResolveAddr (address : string) (defaultIP : IPBinding)
    : Event (option TCPAddr * option error)
| secrets_ReadConfig (path : string)
    : Event (option SecretsManagerConfig * option error).

Definition Prog := free.t Event.

Definition ParseGenesisConfig (cfg : Config.t) : Prog (option Chain * option error) :=
  r ← free.call (chain_Import (Config.GenesisPath cfg));
  let '(chain, parseErr) := r in
  if bool_decide (parseErr ≠ None) then mret (None, parseErr)
  else mret (chain, None).

Definition ParsePrometheusAddress (cfg : Config.t)
  : Prog (option TCPAddr * option error) :=
  match Config.Telemetry cfg with
  | None => mret (None, None)
  | Some telemetry =>
      if decide (Telemetry.PrometheusAddr telemetry = "")
      then mret (None, None)
      else
        free.call (helper_ResolveAddr (Telemetry.PrometheusAddr telemetry)
                     AllInterfacesBinding)
  end.

Definition ParseGrpcAddress (cfg : Config.t)
  : Prog (option TCPAddr * option error) :=
  free.call (helper_ResolveAddr (Config.GRPCAddr cfg) LocalHostBinding).

Definition ParseLibp2pAddress (cfg : Config.t)
  : Prog (option TCPAddr * option error) :=
  free.call (helper_ResolveAddr (Network.Libp2pAddr (Config.Network cfg))
               LocalHostBinding).

Definition ParseJsonRpcAddress (cfg : Config.t)
  : Prog (option TCPAddr * option error) :=
  free.call (helper_ResolveAddr (Config.JSONRPCAddr cfg) AllInterfacesBinding).

Definition ParseNatAddress (cfg : Config.t) : option IP * option error :=
  if decide (Network.NatAddr (Config.Network cfg) = "") then (None, None)
  else
    match net_ParseIP (Network.NatAddr (Config.Network cfg)) with
    | None => (None, Some "invalid network nat address provided")
    | Some addr => (Some addr, None)
    end.

Definition ParseDNSAddress (cfg : Config.t) (p2pPort : Z)
  : option Multiaddr * option error :=
  if decide (Network.DNSAddr (Config.Network cfg) = "") then (None, None)
  else common_MultiAddrFromDNS (Network.DNSAddr (Config.Network cfg)) p2pPort.

Definition ParseSecretsConfig (cfg : Config.t)
  : Prog (option SecretsManagerConfig * option error) :=
  if decide (Config.SecretsConfigPath cfg = "") then mret (None, None)
  else free.call (secrets_ReadConfig (Config.SecretsConfigPath cfg)).

End Package.
End config.

(** ** Concrete settings for the two packages *)
Module AvailScenario.
Import avail avail_trace.

(** A key is its public key, a call its arguments, an extrinsic the
    call and the options it was signed with. *)
#[export] Instance ext : Externals := {|
  API := ();
  Metadata := ();
  StorageKey := list byte;
  Call := list CallArg;
  Extrinsic := list CallArg * option SignatureOptions.t;
  Subscription := nat;
  CreateStorageKey := λ _ _ _ args,
    match args with
    | publicKey :: _ => inr publicKey
    | [] => inl "storage key: no argument"
    end;
  NewCall := λ _ _ args, inr args;
  NewExtrinsic := λ c, (c, None);
  NewMnemonic := λ entropy,
    if decide (length entropy = 16%nat) then inr "abandon ability able"
    else inl "entropy length must be [128, 256] and a multiple of 32";
  KeyringPairFromSecret := λ mnemonic _,
    if decide (mnemonic = "") then inl "empty secret"
    else inr (KeyringPair.mk mnemonic "5Account" [x01; x02]);
  TestKeyringPairAlice := KeyringPair.mk "//Alice" "5Alice" [xd4; x35];
  Uint64 := λ x, x mod 2 ^ 64;
  GoString := λ _, "types.ExtrinsicStatus{...}"
|}.

(** A node: its accounts, what the subscription will deliver, the files
    on disk. *)
Record Node := {
  accounts : list byte → option AccountInfo.t;
  deliveries : list (ExtrinsicStatus.t + option error);
  files : string → error + string
}.

Definition waiting : ExtrinsicStatus.t := ExtrinsicStatus.mk false false false false.
Definition inBlock : ExtrinsicStatus.t := ExtrinsicStatus.mk false true false false.
Definition dropped : ExtrinsicStatus.t := ExtrinsicStatus.mk false false true false.

(** The handler state counts the messages received so far; a silent
    subscription keeps reporting a status that decides nothing. *)
Definition handler (nd : Node) : free.Handler Event nat :=
  λ X e,
    match e in Event X return nat → X * nat with
    | os_ReadFile path => λ n, (files nd path, n)
    | bip39_NewEntropy _ => λ n, (inr (replicate 16 x2a), n)
    | Client_instance => λ n, ((), n)
    | State_GetMetadataLatest _ => λ n, (inr (), n)
    | State_GetStorageLatest _ key => λ n,
        (match accounts nd key with
         | Some info => (true, None, info)
         | None => (false, None, AccountInfo.mk 0 0)
         end, n)
    | Chain_GetBlockHash _ _ => λ n, (inr (replicate 32 x9e), n)
    | State_GetRuntimeVersionLatest _ => λ n, (inr (RuntimeVersion.mk 9 1), n)
    | Extrinsic_Sign e _ o => λ n, (inr (e.1, Some o), n)
    | Author_SubmitAndWatchExtrinsic _ _ => λ n, (inr 1%nat, n)
    | Subscription_select _ => λ n,
        (nth n (deliveries nd) (inl waiting), Datatypes.S n)
    | Subscription_Unsubscribe _ => λ n, ((), n)
    end.

Definition account : KeyringPair.t :=
  KeyringPair.mk "abandon ability able" "5Account" [x01; x02].

(** Alice holds five tokens and a little; the account holds three. *)
Definition node : Node := {|
  accounts := λ key,
    if decide (key = [xd4; x35])
    then Some (AccountInfo.mk 7 (5 * 10 ^ 18 + 7))
    else if decide (key = [x01; x02])
    then Some (AccountInfo.mk 0 (3 * 10 ^ 18))
    else None;
  deliveries := [inl waiting; inl waiting; inl inBlock];
  files := λ path,
    if decide (path = "account.seed") then inr "abandon ability able"
    else inl "open: no such file or directory"
|}.

(** The same node before Alice's account exists. *)
Definition fresh_node : Node := {|
  accounts := λ _, None;
  deliveries := deliveries node;
  files := files node
|}.

End AvailScenario.

Module ConfigScenario.
Import config.

#[export] Instance ext : Externals := {|
  Chain := string;
  TCPAddr := string * IPBinding;
  IP := string;
  Multiaddr := string * Z;
  SecretsManagerConfig := string;
  net_ParseIP := λ s, if decide (s = "10.0.0.7") then Some s else None;
  common_MultiAddrFromDNS := λ s port, (Some (s, port), None)
|}.

Definition handler : free.Handler Event () :=
  λ X e,
    match e in Event X return () → X * () with
    | chain_Import path => λ s, ((Some path, None), s)
    | helper_ResolveAddr address defaultIP => λ s,
        ((Some (address, defaultIP), None), s)
    | secrets_ReadConfig path => λ s, ((Some path, None), s)
    end.

Definition cfg : Config.t := {|
  Config.GenesisPath := "genesis.json";
  Config.SecretsConfigPath := "";
  Config.GRPCAddr := ":9632";
  Config.JSONRPCAddr := ":8545";
  Config.Telemetry := None;
  Config.Network := Network.mk ":1478" "10.0.0.7" ""
|}.

(** A node with telemetry, a secrets file and a DNS name. *)
Definition full_cfg : Config.t := {|
  Config.GenesisPath := "genesis.json";
  Config.SecretsConfigPath := "secrets.json";
  Config.GRPCAddr := ":9632";
  Config.JSONRPCAddr := ":8545";
  Config.Telemetry := Some (Telemetry.mk ":9090");
  Config.Network := Network.mk ":1478" "not an address" "/dns4/node.example.org"
|}.

End ConfigScenario.

(** ** A head that is read again *)
Section Rereading.
Context {ext : Externals}.

(** The header an operation builds on [parent] for the sender [from]
    when the clock reads [now]. *)
Definition headerOn (parent : Header.t) (now : Z) (from : types.Address)
  : Header.t :=
  {| Header.ParentHash := Header.Hash parent;
     Header.Number := uint64 (Header.Number parent + 1);
     Header.Miner := types.Bytes from;
     Header.Nonce := types.ZeroNonce;
     Header.GasLimit := Header.GasLimit parent;
     Header.Timestamp := uint64 now;
     Header.Hash := types.ZeroHash;
     Header.StateRoot := types.ZeroHash |}.

(** The four calls that open a context for [from] on the head [parent]
    the chain reported, when they succeed with [gasLimit] and [t]. *)
Definition opening (parent : Header.t) (now gasLimit : Z)
  (from : types.Address) (t : Transition) : list Call :=
  [ mkCall blockchain_Header parent;
    mkCall time_Now_Unix now;
    mkCall (blockchain_CalculateGasLimit (uint64 (Header.Number parent + 1)))
      (inr gasLimit);
    mkCall (executor_BeginTxn (Header.StateRoot parent)
              (headerOn parent now from) from)
      (inr t) ].

(** The state roots the transitions of a run were opened at. *)
Definition begin_roots (tr : list Call) : list types.Hash :=
  omap (λ c, match call_event c with
             | executor_BeginTxn parentRoot _ _ => Some parentRoot
             | _ => None
             end) tr.

(** Every transition of the run was opened at the head the run read
    first: at its state root, on top of its hash and its number. *)
Definition contexts_at_first_head (tr : list Call) : Prop :=
  ∃ parent,
    heads tr !! 0%nat = Some parent ∧
    Forall (λ root, root = Header.StateRoot parent) (begin_roots tr) ∧
    Forall (λ header,
              Header.ParentHash header = Header.Hash parent ∧
              Header.Number header = uint64 (Header.Number parent + 1))
           (begin_headers tr).

End Rereading.

(** A chain that advances by one block between two readings of its
    head: the later head has another state root and another miner, and
    in its state [A] is on probation and [B] no more. *)
Module MovingHead.
Import Scenario.

Definition head' : Header.t :=
  {| Header.ParentHash := Header.Hash head;
     Header.Number := 8;
     Header.Miner := replicate 20 xbb;
     Header.Nonce := types.ZeroNonce;
     Header.GasLimit := 5000;
     Header.Timestamp := 1001;
     Header.Hash := replicate 32 x08;
     Header.StateRoot := replicate 32 x18 |}.

(** The contract as a transition with block number [number] sees it. *)
Definition contract_on (number : Z) : Contract :=
  contract [A; B; C] (if bool_decide (number ≤ 8) then [B] else [A]) [B; C].

(** The handler state counts the readings of the clock; the head is
    [head] until the clock has been read. *)
Definition handler : Handler nat :=
  λ X e,
    match e in Event X return nat → X * nat with
    | blockchain_Header => λ n, (if decide (n = 0%nat) then head else head', n)
    | blockchain_CalculateGasLimit _ => λ n, (inr 8000000, n)
    | time_Now_Unix => λ n, (clk n, S n)
    | executor_BeginTxn _ header _ => λ n, (inr header, n)
    | Transition_GetNonce _ _ => λ n, (0, n)
    | Transition_Apply t msg => λ n,
        (inr (answer (contract_on (Header.Number t)) (Transaction.Input msg)), n)
    | logger_Error _ _ => λ n, ((), n)
    | logger_Debug _ => λ n, ((), n)
    end.

End MovingHead.

(** * Properties *)

(** ** Running programs *)
Section Running.
Context {ext : Externals}.

Lemma interp_eta {S A} (h : Handler S) (p : Prog A) (s : S) :
  interp h p s = (result h p s, final h p s, trace h p s).
Proof. unfold result, final, trace. by destruct (interp h p s) as [[??]?]. Qed.

Lemma interp_bind {S A B} (h : Handler S) (p : Prog A) (f : A → Prog B) (s : S) :
  interp h (p ≫= f) s =
    let '(a, s1, tr1) := interp h p s in
    let '(b, s2, tr2) := interp h (f a) s1 in
    (b, s2, tr1 ++ tr2).
Proof.
  unfold mbind, Prog_bind. revert s.
  induction p as [a|X e k IH]; intros s; simpl.
  - by destruct (interp h (f a) s) as [[??]?].
  - destruct (h X e s) as [x s1]. rewrite IH.
    destruct (interp h (k x) s1) as [[a s2] tr1].
    by destruct (interp h (f a) s2) as [[??]?].
Qed.

Lemma interp_call {S A X} (h : Handler S) (e : Event X) (f : X → Prog A) (s : S) :
  interp h (call e ≫= f) s =
    let '(x, s1) := h _ e s in
    let '(a, s2, tr) := interp h (f x) s1 in
    (a, s2, mkCall e x :: tr).
Proof. reflexivity. Qed.

Lemma interp_ret {S A} (h : Handler S) (a : A) (s : S) :
  interp h (mret a) s = (a, s, []).
Proof. reflexivity. Qed.

Lemma result_call {S A X} (h : Handler S) (e : Event X) (f : X → Prog A)
  (s : S) :
  result h (call e ≫= f) s = let '(x, s1) := h _ e s in result h (f x) s1.
Proof.
  unfold result. rewrite interp_call. destruct (h _ e s) as [x s1].
  by destruct (interp h (f x) s1) as [[??]?].
Qed.

(** When what follows a program returns a value that depends on the
    program's value only, so does the whole. *)
Lemma result_bind {S A B} (h : Handler S) (p : Prog A) (k : A → Prog B)
  (g : A → B) (s : S) :
  (∀ a s', result h (k a) s' = g a) →
  result h (p ≫= k) s = g (result h p s).
Proof.
  intros Hk. unfold result. rewrite interp_bind.
  destruct (interp h p s) as [[a s1] tr1].
  specialize (Hk a s1). unfold result in Hk.
  by destruct (interp h (k a) s1) as [[b s2] tr2].
Qed.

End Running.

(** ** The loops *)
Section Loops.
Context {ext : Externals}.

Lemma containsLoop_spec (addrs : list types.Address) (addr : types.Address) :
  activeParticipantsQuerier.containsLoop addrs addr = bool_decide (addr ∈ addrs).
Proof.
  induction addrs as [|a rest IH].
  - symmetry. apply bool_decide_eq_false_2, not_elem_of_nil.
  - cbn [activeParticipantsQuerier.containsLoop].
    destruct (decide (a = addr)) as [->|Hne].
    + symmetry. apply bool_decide_eq_true_2. left.
    + rewrite IH. apply bool_decide_ext. rewrite elem_of_cons.
      split; [by right|]. by intros [->|?].
Qed.

Lemma inProbationLoop_spec (probationAddrs : list types.Address)
  (address : types.Address) :
  activeParticipantsQuerier.inProbationLoop probationAddrs address
  = bool_decide (address ∈ probationAddrs).
Proof.
  induction probationAddrs as [|p rest IH].
  - symmetry. apply bool_decide_eq_false_2, not_elem_of_nil.
  - cbn [activeParticipantsQuerier.inProbationLoop].
    destruct (decide (types.Bytes p = types.Bytes address)) as [Hp|Hp];
      unfold types.Bytes in Hp.
    + rewrite Hp. symmetry. apply bool_decide_eq_true_2. left.
    + rewrite IH. apply bool_decide_ext. rewrite elem_of_cons.
      split; [by right|]. by intros [->|?].
Qed.

Context {ok : ExternalsOK ext}.

Lemma probationLoop_spec (addr : types.Address)
  (probationAddrs : list types.Address) :
  probationLoop addr probationAddrs = bool_decide (addr ∈ probationAddrs).
Proof.
  induction probationAddrs as [|p rest IH].
  - symmetry. apply bool_decide_eq_false_2, not_elem_of_nil.
  - cbn [probationLoop].
    destruct (decide (Address_String addr = Address_String p)) as [Hp|Hp].
    + apply Address_String_inj in Hp. subst.
      symmetry. apply bool_decide_eq_true_2. left.
    + rewrite IH. apply bool_decide_ext. rewrite elem_of_cons.
      split; [by right|]. by intros [->|?].
Qed.

(** The nested loop computes the specification's filter, appended to
    what was already collected. *)
Lemma mainLoop_spec (addrs probationAddrs toReturn : list types.Address) :
  mainLoop addrs probationAddrs toReturn
  = toReturn ++ exclude_probation addrs probationAddrs.
Proof.
  unfold exclude_probation.
  revert toReturn.
  induction addrs as [|a rest IH]; intros toReturn; cbn [mainLoop].
  - by rewrite filter_nil, app_nil_r.
  - rewrite probationLoop_spec. case_bool_decide as Ha.
    + rewrite IH. rewrite filter_cons_False; [done|]. by intros ?.
    + rewrite IH. rewrite filter_cons_True by done. by rewrite <- app_assoc.
Qed.

Lemma exclude_probation_elem_of (R P : list types.Address) (a : types.Address) :
  a ∈ exclude_probation R P ↔ a ∈ R ∧ a ∉ P.
Proof. unfold exclude_probation. rewrite list_elem_of_filter. tauto. Qed.

Lemma exclude_probation_sublist (R P : list types.Address) :
  sublist (exclude_probation R P) R.
Proof. apply sublist_filter. Qed.

Lemma exclude_probation_NoDup (R P : list types.Address) :
  NoDup R → NoDup (exclude_probation R P).
Proof. apply NoDup_filter. Qed.

End Loops.

(** ** Big-endian integers *)
Section BigEndian.

Lemma byte_to_Z_range (b : byte) : 0 ≤ byte_to_Z b < 256.
Proof.
  unfold byte_to_Z. pose proof (Byte.to_N_bounded b). lia.
Qed.

Lemma byte_to_of_Z (z : Z) : byte_to_Z (byte_of_Z z) = z mod 256.
Proof.
  unfold byte_to_Z, byte_of_Z.
  pose proof (Z.mod_pos_bound z 256 ltac:(lia)) as Hz.
  destruct (Byte.of_N (Z.to_N (z mod 256))) as [b|] eqn:Hb; simpl.
  - apply Byte.to_of_N in Hb. rewrite Hb. lia.
  - apply Byte.of_N_None_iff in Hb. lia.
Qed.

Lemma SetBytes_app (l : list byte) (b : byte) :
  SetBytes (l ++ [b]) = SetBytes l * 256 + byte_to_Z b.
Proof. unfold SetBytes. by rewrite fold_left_app. Qed.

Lemma SetBytes_nonneg (buf : list byte) : 0 ≤ SetBytes buf.
Proof.
  induction buf as [|b l IH] using rev_ind; [done|].
  rewrite SetBytes_app. pose proof (byte_to_Z_range b). lia.
Qed.

Lemma SetBytes_big_endian_mod (n : nat) (V : Z) :
  SetBytes (big_endian n V) = V mod 256 ^ Z.of_nat n.
Proof.
  revert V. induction n as [|n IH]; intros V.
  - simpl. by rewrite Z.mod_1_r.
  - cbn [big_endian]. rewrite SetBytes_app, IH, byte_to_of_Z.
    rewrite Nat2Z.inj_succ, Z.pow_succ_r by lia.
    assert (0 < 256 ^ Z.of_nat n) by (apply Z.pow_pos_nonneg; lia).
    rewrite Z.rem_mul_r by lia. lia.
Qed.

Lemma SetBytes_big_endian (n : nat) (V : Z) :
  0 ≤ V < 256 ^ Z.of_nat n → SetBytes (big_endian n V) = V.
Proof. intros HV. rewrite SetBytes_big_endian_mod. by apply Z.mod_small. Qed.

Lemma length_big_endian (n : nat) (V : Z) : length (big_endian n V) = n.
Proof.
  revert V. induction n as [|n IH]; intros V; [done|].
  cbn [big_endian]. rewrite length_app, IH. simpl. lia.
Qed.

End BigEndian.

(** ** [Contains] and [Get] *)
Section ContainsGet.
Context {ext : Externals}.

Lemma Contains_after_Get {S} (h : Handler S) (s : S) (addr : types.Address)
  (nodeType : NodeType) (addrs : slice types.Address) :
  result h (activeParticipantsQuerier.Get nodeType) s = (addrs, None) →
  result h (activeParticipantsQuerier.Contains addr nodeType) s
  = (bool_decide (addr ∈ elems addrs), None).
Proof.
  intros HGet. unfold result, activeParticipantsQuerier.Contains.
  rewrite interp_bind, interp_eta, HGet.
  rewrite containsLoop_spec.
  destruct (bool_decide (addr ∈ elems addrs)); simpl.
  - by destruct (h _ _ _) as [[] ?].
  - destruct (h _ _ _) as [[] ?]. by destruct (h _ _ _) as [[] ?].
Qed.

Lemma Contains_Get_error {S} (h : Handler S) (s : S) (addr : types.Address)
  (nodeType : NodeType) (addrs : slice types.Address) (err : error) :
  result h (activeParticipantsQuerier.Get nodeType) s = (addrs, Some err) →
  interp h (activeParticipantsQuerier.Contains addr nodeType) s
  = ((false, Some err), final h (activeParticipantsQuerier.Get nodeType) s,
     trace h (activeParticipantsQuerier.Get nodeType) s).
Proof.
  intros HGet. unfold activeParticipantsQuerier.Contains.
  rewrite interp_bind, interp_eta, HGet. simpl. by rewrite app_nil_r.
Qed.

End ContainsGet.

(** ** Every handler: what the operations do whatever the collaborators
    answer *)

Section AnyHandler.
Context {ext : Externals}.

Lemma DecodeParticipants_closed (m : abi.Method) (rv : list byte) :
  (DecodeParticipants m rv).2 ≠ None → (DecodeParticipants m rv).1 = None.
Proof.
  unfold DecodeParticipants.
  destruct (abi.Outputs_Decode m rv) as [e|[]]; simpl; try done.
  by destruct (abi.index _ _).
Qed.

Lemma BytesToAddress_20 (b : list byte) :
  length b = 20%nat → types.BytesToAddress b = b.
Proof.
  intros Hb. unfold types.BytesToAddress, types.AddressLength.
  rewrite Hb. simpl. by rewrite drop_0.
Qed.

Lemma length_BytesToAddress (b : list byte) :
  length (types.BytesToAddress b) = 20%nat.
Proof.
  unfold types.BytesToAddress, types.AddressLength.
  rewrite length_app, length_replicate, length_drop. lia.
Qed.

(** Symbolic execution: take the answer of the next call, whatever it
    is, and split on what the code inspects. *)
Ltac exec_step h :=
  match goal with
  | |- context [h ?X ?e ?s] => destruct (h X e s) as [? ?]
  | |- context [match ?x with inl _ => _ | inr _ => _ end] =>
      is_var x; destruct x
  | |- context [StakingABI_Methods !! ?k] =>
      destruct (StakingABI_Methods !! k)
  | |- context [abi.Inputs_Encode ?m ?v] =>
      destruct (abi.Inputs_Encode m v)
  | |- context [ExecutionResult.Failed ?r] =>
      is_var r; destruct r as [? [?|]]
  | |- context [DecodeParticipants ?m ?rv] =>
      pose proof (DecodeParticipants_closed m rv);
      destruct (DecodeParticipants m rv) as [? [?|]]
  | |- context [activeParticipantsQuerier.containsLoop ?l ?a] =>
      destruct (activeParticipantsQuerier.containsLoop l a)
  end.

Ltac exec h := repeat (cbn -[omap]; exec_step h).

Ltac unfold_ops :=
  unfold result, trace,
    activeParticipantsQuerier.Contains,
    activeParticipantsQuerier.Get,
    activeParticipantsQuerier.InProbation,
    activeParticipantsQuerier.GetBalance,
    activeParticipantsQuerier.GetTotalStakedAmount,
    QueryActiveSequencers, QuerySequencers, QueryWatchtower,
    QuerySequencersInProbation, QueryParticipantBalance,
    QueryParticipantTotalStakedAmount.

Ltac close_outcome :=
  split;
  [ cbn; intros ? Hin;
    repeat (apply elem_of_cons in Hin as [->|Hin]; [done|]);
    by apply elem_of_nil in Hin
  | cbn; intros; first [done | auto] ].

Lemma Get_fails_closed {S} (h : Handler S) (s : S) (nodeType : NodeType) :
  fails_closed None (result h (activeParticipantsQuerier.Get nodeType) s)
    (trace h (activeParticipantsQuerier.Get nodeType) s).
Proof.
  unfold_ops.
  destruct (decide (nodeType = Sequencer));
    [|destruct (decide (nodeType = WatchTower))];
    exec h; close_outcome.
Qed.





Ltac close_context :=
  eexists _, _, _, _; split; [reflexivity|]; cbn; eauto.

Lemma Get_opens_context {S} (h : Handler S) (s : S) (nodeType : NodeType) :
  opens_context (trace h (activeParticipantsQuerier.Get nodeType) s).
Proof.
  unfold_ops.
  destruct (decide (nodeType = Sequencer));
    [|destruct (decide (nodeType = WatchTower))];
    exec h; close_context.
Qed.

(** What [Get] does with a node type that is neither constant: the
    context is opened first; no transaction is ever submitted; the
    outcome is an error and no list; and when the gas limit and the
    transition were obtained, the error is the node-type one. *)
Lemma Get_unsupported {S} (h : Handler S) (s : S) (nodeType : NodeType) :
  nodeType ≠ Sequencer → nodeType ≠ WatchTower →
  let out := result h (activeParticipantsQuerier.Get nodeType) s in
  let tr := trace h (activeParticipantsQuerier.Get nodeType) s in
  opens_context tr ∧
  Forall (λ c, is_contract_call c = false) tr ∧
  (∀ e, e ∈ omap call_error tr → out = (None, Some e)) ∧
  (omap call_error tr = [] →
     out = (None, Some (unsupportedNodeType nodeType)) ∧ length tr = 4%nat).
Proof.
  intros HS HW out tr. subst out tr.
  split; [apply Get_opens_context|].
  split; [|split; [apply Get_fails_closed|]].
  - unfold_ops.
    destruct (decide (nodeType = Sequencer)); [done|].
    destruct (decide (nodeType = WatchTower)); [done|].
    exec h; repeat constructor.
  - unfold_ops.
    destruct (decide (nodeType = Sequencer)); [done|].
    destruct (decide (nodeType = WatchTower)); [done|].
    exec h; cbn; intros Herr; by try discriminate Herr.
Qed.

Lemma GetBalance_nonneg {S} (h : Handler S) (s : S) (address : types.Address)
  (z : Z) :
  result h (activeParticipantsQuerier.GetBalance address) s = (Some z, None) →
  0 ≤ z.
Proof.
  unfold_ops. exec h; intros [= <-] || intros [=]; apply SetBytes_nonneg.
Qed.

Lemma GetTotalStakedAmount_nonneg {S} (h : Handler S) (s : S) (z : Z) :
  result h activeParticipantsQuerier.GetTotalStakedAmount s = (Some z, None) →
  0 ≤ z.
Proof.
  unfold_ops. exec h; intros [= <-] || intros [=]; apply SetBytes_nonneg.
Qed.

Lemma Contains_opens_context {S} (h : Handler S) (s : S)
  (addr : types.Address) (nodeType : NodeType) :
  opens_context (trace h (activeParticipantsQuerier.Contains addr nodeType) s).
Proof.
  unfold_ops.
  destruct (decide (nodeType = Sequencer));
    [|destruct (decide (nodeType = WatchTower))];
    exec h; close_context.
Qed.

Lemma InProbation_opens_context {S} (h : Handler S) (s : S)
  (address : types.Address) :
  opens_context (trace h (activeParticipantsQuerier.InProbation address) s).
Proof. unfold_ops. exec h; close_context. Qed.

Lemma GetBalance_opens_context {S} (h : Handler S) (s : S)
  (address : types.Address) :
  opens_context (trace h (activeParticipantsQuerier.GetBalance address) s).
Proof. unfold_ops. exec h; close_context. Qed.

Lemma GetTotalStakedAmount_opens_context {S} (h : Handler S) (s : S) :
  opens_context (trace h activeParticipantsQuerier.GetTotalStakedAmount s).
Proof. unfold_ops. exec h; close_context. Qed.

End AnyHandler.

(** ** A quiescent world: one head, one contract state *)
Section QuiescentWorld.
Context {ext : Externals}.

Lemma clock_free_interp {A} (w : World) (p : Prog A) (n : nat) :
  clock_free p →
  interp (world_handler w) p n = (query_result w p, n, query_trace w p).
Proof.
  unfold query_result, query_trace, result, trace.
  induction p as [a|X e k IH]; intros Hp; [done|].
  destruct Hp as [He Hk]. cbn [interp].
  destruct e; try done; cbn [world_handler];
    rewrite !IH by auto;
    by destruct (interp _ _ _) as [[??]?].
Qed.

Ltac clock_free_tac :=
  repeat match goal with
  | |- clock_free (match ?x with _ => _ end) => destruct x
  | |- clock_free (if ?x then _ else _) => destruct x
  | |- _ => cbn; first [done | split; [done|intros ?]]
  end.

Lemma QueryParticipants_clock_free t gasLimit from :
  clock_free (QueryParticipants t gasLimit from).
Proof. unfold QueryParticipants. clock_free_tac. Qed.

Lemma QuerySequencers_clock_free t gasLimit from :
  clock_free (QuerySequencers t gasLimit from).
Proof. unfold QuerySequencers. clock_free_tac. Qed.

Lemma QuerySequencersInProbation_clock_free t gasLimit from :
  clock_free (QuerySequencersInProbation t gasLimit from).
Proof. unfold QuerySequencersInProbation. clock_free_tac. Qed.

Lemma QueryWatchtower_clock_free t gasLimit from :
  clock_free (QueryWatchtower t gasLimit from).
Proof. unfold QueryWatchtower. clock_free_tac. Qed.

Lemma QueryParticipantBalance_clock_free t gasLimit from addr :
  clock_free (QueryParticipantBalance t gasLimit from addr).
Proof. unfold QueryParticipantBalance. clock_free_tac. Qed.

Lemma QueryParticipantTotalStakedAmount_clock_free t gasLimit from :
  clock_free (QueryParticipantTotalStakedAmount t gasLimit from).
Proof. unfold QueryParticipantTotalStakedAmount. clock_free_tac. Qed.

Lemma result_bind_clock_free {A B} (w : World) (p : Prog A) (k : A → Prog B)
  (n : nat) :
  clock_free p →
  result (world_handler w) (p ≫= k) n
  = result (world_handler w) (k (query_result w p)) n.
Proof.
  intros Hp. unfold result. rewrite interp_bind, clock_free_interp by done.
  by destruct (interp _ _ _) as [[??]?].
Qed.

(** A query that returned a list found its method, had its transaction
    applied without failure and decoded the returned buffer. *)
Ltac query_success :=
  unfold query_result, query_trace, result, trace, query_calls, queryTx;
  match goal with
  | |- context [StakingABI_Methods !! ?k] =>
      destruct (StakingABI_Methods !! k) as [?|]; [|discriminate]
  end;
  cbn;
  match goal with
  | |- context [Apply ?w ?t ?msg] =>
      destruct (Apply w t msg) as [?|[? [?|]]] eqn:?;
      cbn; try discriminate
  end;
  intros ?; eexists _, _; by repeat split.

Lemma QuerySequencers_success w t gasLimit from R :
  query_result w (QuerySequencers t gasLimit from) = (Some R, None) →
  ∃ m res,
    StakingABI_Methods !! "GetCurrentSequencers" = Some m ∧
    Apply w t (queryTx from (abi.ID m) gasLimit (GetNonce w t from)) = inr res ∧
    ExecutionResult.Err res = None ∧
    DecodeParticipants m (ExecutionResult.ReturnValue res) = (Some R, None) ∧
    query_trace w (QuerySequencers t gasLimit from)
    = query_calls w t from (abi.ID m) gasLimit res.
Proof. unfold QuerySequencers. query_success. Qed.

Lemma QuerySequencersInProbation_success w t gasLimit from P :
  query_result w (QuerySequencersInProbation t gasLimit from) = (Some P, None) →
  ∃ m res,
    StakingABI_Methods !! "GetCurrentSequencersInProbation" = Some m ∧
    Apply w t (queryTx from (abi.ID m) gasLimit (GetNonce w t from)) = inr res ∧
    ExecutionResult.Err res = None ∧
    DecodeParticipants m (ExecutionResult.ReturnValue res) = (Some P, None) ∧
    query_trace w (QuerySequencersInProbation t gasLimit from)
    = query_calls w t from (abi.ID m) gasLimit res.
Proof. unfold QuerySequencersInProbation. query_success. Qed.

Lemma QueryWatchtower_success w t gasLimit from W :
  query_result w (QueryWatchtower t gasLimit from) = (Some W, None) →
  ∃ m res,
    StakingABI_Methods !! "GetCurrentWatchtowers" = Some m ∧
    Apply w t (queryTx from (abi.ID m) gasLimit (GetNonce w t from)) = inr res ∧
    ExecutionResult.Err res = None ∧
    DecodeParticipants m (ExecutionResult.ReturnValue res) = (Some W, None) ∧
    query_trace w (QueryWatchtower t gasLimit from)
    = query_calls w t from (abi.ID m) gasLimit res.
Proof. unfold QueryWatchtower. query_success. Qed.

#[local] Arguments QuerySequencers : simpl never.
#[local] Arguments QuerySequencersInProbation : simpl never.
#[local] Arguments QueryWatchtower : simpl never.
#[local] Arguments QueryActiveSequencers : simpl never.
#[local] Arguments QueryParticipantBalance : simpl never.
#[local] Arguments QueryParticipantTotalStakedAmount : simpl never.

(** Reading the head and the clock and computing the gas limit. *)
Ltac read_head :=
  do 3 (rewrite interp_call; cbn [world_handler Header.Number]).

(** The same, followed by the opening of the transition. *)
Ltac open_context Hgl Ht :=
  read_head; rewrite Hgl; rewrite interp_call; cbn [world_handler];
  rewrite Ht.

Ltac run_query Hfree Hres :=
  rewrite interp_bind, clock_free_interp by apply Hfree;
  let H := fresh in
  pose proof Hres as H; unfold slice in H |- *; rewrite H; clear H.

Section Sequencers.
Variables (w : World) (n : nat) (gasLimit : Z) (t1 : Transition).
Let parent := chain_head w.
Let miner := types.BytesToAddress (Header.Miner parent).
Hypothesis Hgl :
  CalculateGasLimit w (uint64 (Header.Number parent + 1)) = inr gasLimit.
Hypothesis Ht1 :
  BeginTxn w (Header.StateRoot parent) (nextHeader parent (clock w n)) miner
  = inr t1.


Variables (R : list types.Address).
Hypothesis HR :
  query_result w (QuerySequencers t1 gasLimit miner) = (Some R, None).


Variable (t2 : Transition).
Hypothesis Ht2 :
  BeginTxn w (Header.StateRoot parent) (nextHeader parent (clock w (S n))) miner
  = inr t2.


Lemma Get_Sequencer_interp (P : list types.Address) :
  query_result w (QuerySequencersInProbation t2 gasLimit miner) = (Some P, None) →
  interp (world_handler w) (activeParticipantsQuerier.Get Sequencer) n
  = ((Some (mainLoop R P []), None), S (S n),
     context_calls w n gasLimit t1
     ++ query_trace w (QuerySequencers t1 gasLimit miner)
     ++ context_calls w (S n) gasLimit t2
     ++ query_trace w (QuerySequencersInProbation t2 gasLimit miner)).
Proof using Hgl Ht1 HR Ht2.
  intros HP. subst parent miner. unfold nextHeader in Ht1, Ht2.
  unfold activeParticipantsQuerier.Get, types.Bytes.
  open_context Hgl Ht1. rewrite decide_True by done.
  rewrite interp_bind. unfold QueryActiveSequencers, types.Bytes.
  run_query QuerySequencers_clock_free HR.
  open_context Hgl Ht2.
  run_query QuerySequencersInProbation_clock_free HP.
  cbn. by rewrite !app_nil_r.
Qed.

End Sequencers.

(** Probation exclusion while the head stands still.  In a quiescent
    world where the context opens, the role-set query on the first
    transition returns [R] and the probation query on the second
    returns [P], [Get(Sequencer)] returns exactly the addresses of [R]
    that are not in [P], in the order of [R], nothing added and nothing
    else dropped; the probation query runs on a second transition,
    which in such a world is opened at the same head as the first. *)
Theorem Get_Sequencer_excludes_probation {ok : ExternalsOK ext}
  (w : World) (n : nat) (gasLimit : Z) (t1 t2 : Transition)
  (R P : list types.Address) :
  let parent := chain_head w in
  let miner := types.BytesToAddress (Header.Miner parent) in
  CalculateGasLimit w (uint64 (Header.Number parent + 1)) = inr gasLimit →
  BeginTxn w (Header.StateRoot parent) (nextHeader parent (clock w n)) miner
    = inr t1 →
  BeginTxn w (Header.StateRoot parent) (nextHeader parent (clock w (S n))) miner
    = inr t2 →
  query_result w (QuerySequencers t1 gasLimit miner) = (Some R, None) →
  query_result w (QuerySequencersInProbation t2 gasLimit miner) = (Some P, None) →
  result (world_handler w) (activeParticipantsQuerier.Get Sequencer) n
    = (Some (exclude_probation R P), None) ∧
  (∀ a, a ∈ exclude_probation R P ↔ a ∈ R ∧ a ∉ P) ∧
  sublist (exclude_probation R P) R ∧
  (NoDup R → NoDup (exclude_probation R P)) ∧
  ∃ mS mP resS resP,
    StakingABI_Methods !! "GetCurrentSequencers" = Some mS ∧
    StakingABI_Methods !! "GetCurrentSequencersInProbation" = Some mP ∧
    trace (world_handler w) (activeParticipantsQuerier.Get Sequencer) n
    = context_calls w n gasLimit t1
      ++ query_calls w t1 miner (abi.ID mS) gasLimit resS
      ++ context_calls w (S n) gasLimit t2
      ++ query_calls w t2 miner (abi.ID mP) gasLimit resP.
Proof.
  intros parent miner Hgl Ht1 Ht2 HR HP.
  pose proof (Get_Sequencer_interp w n gasLimit t1 Hgl Ht1 R HR t2 Ht2 P HP)
    as Hrun.
  fold parent miner in Hrun.
  rewrite mainLoop_spec, app_nil_l in Hrun.
  split; [by unfold result; rewrite Hrun|].
  split; [apply exclude_probation_elem_of|].
  split; [apply exclude_probation_sublist|].
  split; [apply exclude_probation_NoDup|].
  destruct (QuerySequencers_success _ _ _ _ _ HR)
    as (mS & resS & HmS & _ & _ & _ & HtrS).
  destruct (QuerySequencersInProbation_success _ _ _ _ _ HP)
    as (mP & resP & HmP & _ & _ & _ & HtrP).
  exists mS, mP, resS, resP. repeat split; [done..|].
  unfold trace. by rewrite Hrun, HtrS, HtrP.
Qed.


(** C5 (watchtower immunity).  [Get(WatchTower)] returns the list the
    [GetCurrentWatchtowers] query returns, as it is: an address of it
    that is also in the probation set is still returned, and the run
    consists of the opening of the context and that one query. *)
Theorem Get_WatchTower_ignores_probation {ok : ExternalsOK ext}
  (w : World) (n : nat) (gasLimit : Z) (t : Transition)
  (W P : list types.Address) :
  let parent := chain_head w in
  let miner := types.BytesToAddress (Header.Miner parent) in
  CalculateGasLimit w (uint64 (Header.Number parent + 1)) = inr gasLimit →
  BeginTxn w (Header.StateRoot parent) (nextHeader parent (clock w n)) miner
    = inr t →
  query_result w (QueryWatchtower t gasLimit miner) = (Some W, None) →
  query_result w (QuerySequencersInProbation t gasLimit miner) = (Some P, None) →
  result (world_handler w) (activeParticipantsQuerier.Get WatchTower) n
    = (Some W, None) ∧
  (∀ a, a ∈ W → a ∈ P →
     a ∈ elems (result (world_handler w)
                  (activeParticipantsQuerier.Get WatchTower) n).1) ∧
  ∃ m res,
    StakingABI_Methods !! "GetCurrentWatchtowers" = Some m ∧
    trace (world_handler w) (activeParticipantsQuerier.Get WatchTower) n
    = context_calls w n gasLimit t
      ++ query_calls w t miner (abi.ID m) gasLimit res.
Proof.
  intros parent miner Hgl Ht HW HP.
  assert (interp (world_handler w) (activeParticipantsQuerier.Get WatchTower) n
          = ((Some W, None), S n,
             context_calls w n gasLimit t
             ++ query_trace w (QueryWatchtower t gasLimit miner))) as Hrun.
  { subst parent miner. unfold nextHeader in Ht.
    unfold activeParticipantsQuerier.Get, types.Bytes.
    open_context Hgl Ht.
    rewrite decide_False by (intros Heq; by apply Sequencer_WatchTower).
    rewrite decide_True by done.
    run_query QueryWatchtower_clock_free HW.
    cbn. by rewrite app_nil_r. }
  unfold result, trace. rewrite Hrun. cbn [fst snd].
  split; [done|]. split; [by intros a Ha _|].
  destruct (QueryWatchtower_success _ _ _ _ _ HW)
    as (m & res & Hm & _ & _ & _ & Htr).
  exists m, res. by rewrite Htr.
Qed.

(** C7 (probation query).  When the probation query returns [P],
    [InProbation(a)] is true exactly when [a] is in [P]; the run is the
    opening of the context and that one query, whatever the role of
    [a]. *)
Theorem InProbation_iff_in_probation_set
  (w : World) (n : nat) (gasLimit : Z) (t : Transition)
  (P : list types.Address) (address : types.Address) :
  let parent := chain_head w in
  let miner := types.BytesToAddress (Header.Miner parent) in
  CalculateGasLimit w (uint64 (Header.Number parent + 1)) = inr gasLimit →
  BeginTxn w (Header.StateRoot parent) (nextHeader parent (clock w n)) miner
    = inr t →
  query_result w (QuerySequencersInProbation t gasLimit miner) = (Some P, None) →
  (∃ b, result (world_handler w)
          (activeParticipantsQuerier.InProbation address) n = (b, None) ∧
        (b = true ↔ address ∈ P)) ∧
  ∃ m res,
    StakingABI_Methods !! "GetCurrentSequencersInProbation" = Some m ∧
    trace (world_handler w) (activeParticipantsQuerier.InProbation address) n
    = context_calls w n gasLimit t
      ++ query_calls w t miner (abi.ID m) gasLimit res.
Proof.
  intros parent miner Hgl Ht HP.
  assert (interp (world_handler w)
            (activeParticipantsQuerier.InProbation address) n
          = ((bool_decide (address ∈ P), None), S n,
             context_calls w n gasLimit t
             ++ query_trace w (QuerySequencersInProbation t gasLimit miner)))
    as Hrun.
  { subst parent miner. unfold nextHeader in Ht.
    unfold activeParticipantsQuerier.InProbation, types.Bytes.
    open_context Hgl Ht.
    run_query QuerySequencersInProbation_clock_free HP.
    cbn. by rewrite inProbationLoop_spec, app_nil_r. }
  unfold result, trace. rewrite Hrun. cbn [fst snd]. split.
  - eexists. split; [done|]. apply bool_decide_eq_true.
  - destruct (QuerySequencersInProbation_success _ _ _ _ _ HP)
      as (m & res & Hm & _ & _ & _ & Htr).
    exists m, res. by rewrite Htr.
Qed.

(** C8 (stake amounts).  A returned buffer of [k] bytes (thirty-two for
    a 256-bit word) that holds [V] in big-endian order is decoded by
    [GetBalance] and by [GetTotalStakedAmount] to exactly [V], zero
    included, with no error; and whatever buffer the contract returns,
    a decoded amount is never negative. *)
Theorem stake_amount_decoding
  (w : World) (n : nat) (gasLimit : Z) (t : Transition) (k : nat) (V : Z) :
  let parent := chain_head w in
  let miner := types.BytesToAddress (Header.Miner parent) in
  0 ≤ V < 256 ^ Z.of_nat k →
  CalculateGasLimit w (uint64 (Header.Number parent + 1)) = inr gasLimit →
  BeginTxn w (Header.StateRoot parent) (nextHeader parent (clock w n)) miner
    = inr t →
  (∀ address m encodedInput,
     StakingABI_Methods !! "GetCurrentAccountStakedAmount" = Some m →
     abi.Inputs_Encode m (abi.Map [("addr", abi.Bytes address)])
       = inr encodedInput →
     Apply w t (queryTx miner (abi.ID m ++ encodedInput) gasLimit
                  (GetNonce w t miner))
       = inr (ExecutionResult.mk (big_endian k V) None) →
     result (world_handler w) (activeParticipantsQuerier.GetBalance address) n
       = (Some V, None)) ∧
  (∀ m,
     StakingABI_Methods !! "GetCurrentStakedAmount" = Some m →
     Apply w t (queryTx miner (abi.ID m) gasLimit (GetNonce w t miner))
       = inr (ExecutionResult.mk (big_endian k V) None) →
     result (world_handler w) activeParticipantsQuerier.GetTotalStakedAmount n
       = (Some V, None)) ∧
  (∀ S (h : Handler S) (s : S) address z,
     (result h (activeParticipantsQuerier.GetBalance address) s = (Some z, None)
      ∨ result h activeParticipantsQuerier.GetTotalStakedAmount s
        = (Some z, None)) →
     0 ≤ z).
Proof.
  intros parent miner HV Hgl Ht. subst parent miner.
  unfold nextHeader in Ht. split; [|split].
  - intros address m encodedInput Hm Henc HApply.
    unfold result, activeParticipantsQuerier.GetBalance, types.Bytes.
    open_context Hgl Ht. rewrite interp_bind.
    unfold QueryParticipantBalance, types.Bytes. rewrite Hm, Henc.
    do 2 (rewrite interp_call; cbn [world_handler]).
    unfold queryTx in HApply. rewrite HApply. cbn -[SetBytes big_endian].
    by rewrite SetBytes_big_endian.
  - intros m Hm HApply.
    unfold result, activeParticipantsQuerier.GetTotalStakedAmount, types.Bytes.
    open_context Hgl Ht. rewrite interp_bind.
    unfold QueryParticipantTotalStakedAmount. rewrite Hm.
    do 2 (rewrite interp_call; cbn [world_handler]).
    unfold queryTx in HApply. rewrite HApply. cbn -[SetBytes big_endian].
    by rewrite SetBytes_big_endian.
  - intros S h s address z [Hz|Hz].
    + by eapply GetBalance_nonneg.
    + by eapply GetTotalStakedAmount_nonneg.
Qed.

(** *** Every transition is opened at the head *)

Ltac exec_world_step :=
  match goal with
  | |- context [CalculateGasLimit ?w ?x] => destruct (CalculateGasLimit w x)
  | |- context [BeginTxn ?w ?r ?h ?f] => destruct (BeginTxn w r h f)
  | |- context [StakingABI_Methods !! ?k] =>
      destruct (StakingABI_Methods !! k)
  | |- context [abi.Inputs_Encode ?m ?v] =>
      destruct (abi.Inputs_Encode m v)
  | |- context [Apply ?w ?t ?m] => destruct (Apply w t m) as [?|[? [?|]]]
  | |- context [DecodeParticipants ?m ?rv] =>
      destruct (DecodeParticipants m rv) as [? [?|]]
  | |- context [activeParticipantsQuerier.containsLoop ?l ?a] =>
      destruct (activeParticipantsQuerier.containsLoop l a)
  end.

Ltac exec_world :=
  unfold trace,
    activeParticipantsQuerier.Contains,
    activeParticipantsQuerier.Get,
    activeParticipantsQuerier.InProbation,
    activeParticipantsQuerier.GetBalance,
    activeParticipantsQuerier.GetTotalStakedAmount,
    QueryActiveSequencers, QuerySequencers, QueryWatchtower,
    QuerySequencersInProbation, QueryParticipantBalance,
    QueryParticipantTotalStakedAmount, types.Bytes;
  repeat (cbn; exec_world_step);
  cbn; repeat constructor; eexists; reflexivity.

Lemma Get_opened_at_head (w : World) (n : nat) (nodeType : NodeType) :
  Forall (opened_at_head w)
    (trace (world_handler w) (activeParticipantsQuerier.Get nodeType) n).
Proof.
  unfold activeParticipantsQuerier.Get.
  destruct (decide (nodeType = Sequencer));
    [|destruct (decide (nodeType = WatchTower))];
    exec_world.
Qed.

Lemma Contains_opened_at_head (w : World) (n : nat) (addr : types.Address)
  (nodeType : NodeType) :
  Forall (opened_at_head w)
    (trace (world_handler w)
       (activeParticipantsQuerier.Contains addr nodeType) n).
Proof.
  unfold activeParticipantsQuerier.Contains, activeParticipantsQuerier.Get.
  destruct (decide (nodeType = Sequencer));
    [|destruct (decide (nodeType = WatchTower))];
    exec_world.
Qed.

Lemma InProbation_opened_at_head (w : World) (n : nat) (address : types.Address) :
  Forall (opened_at_head w)
    (trace (world_handler w) (activeParticipantsQuerier.InProbation address) n).
Proof. exec_world. Qed.

Lemma GetBalance_opened_at_head (w : World) (n : nat) (address : types.Address) :
  Forall (opened_at_head w)
    (trace (world_handler w) (activeParticipantsQuerier.GetBalance address) n).
Proof. exec_world. Qed.

Lemma GetTotalStakedAmount_opened_at_head (w : World) (n : nat) :
  Forall (opened_at_head w)
    (trace (world_handler w) activeParticipantsQuerier.GetTotalStakedAmount n).
Proof. exec_world. Qed.

(** *** The timestamp *)
Section TimestampBlind.
Variables (w : World) (sim : Transition → Transition → Prop).
Hypothesis Hblind : timestamp_blind w sim.
Variables (c1 c2 : nat → Z).

Ltac sim_query Hsim :=
  destruct Hblind as (_ & Hnonce & Happly);
  unfold query_result, result; cbn;
  repeat match goal with
  | |- context [StakingABI_Methods !! ?k] =>
      destruct (StakingABI_Methods !! k); [|done]
  | |- context [abi.Inputs_Encode ?m ?v] =>
      destruct (abi.Inputs_Encode m v); [done|]
  end;
  cbn; rewrite (Hnonce _ _ _ Hsim), (Happly _ _ _ Hsim);
  by destruct (Apply _ _ _) as [?|[? [?|]]].

Lemma QueryParticipants_sim t1 t2 gasLimit from :
  sim t1 t2 →
  query_result (with_clock w c1) (QueryParticipants t1 gasLimit from)
  = query_result (with_clock w c2) (QueryParticipants t2 gasLimit from).
Proof using Hblind. intros Hsim. unfold QueryParticipants. sim_query Hsim. Qed.

Lemma QuerySequencers_sim t1 t2 gasLimit from :
  sim t1 t2 →
  query_result (with_clock w c1) (QuerySequencers t1 gasLimit from)
  = query_result (with_clock w c2) (QuerySequencers t2 gasLimit from).
Proof using Hblind. intros Hsim. unfold QuerySequencers. sim_query Hsim. Qed.

Lemma QuerySequencersInProbation_sim t1 t2 gasLimit from :
  sim t1 t2 →
  query_result (with_clock w c1) (QuerySequencersInProbation t1 gasLimit from)
  = query_result (with_clock w c2) (QuerySequencersInProbation t2 gasLimit from).
Proof using Hblind.
  intros Hsim. unfold QuerySequencersInProbation. sim_query Hsim.
Qed.

Lemma QueryWatchtower_sim t1 t2 gasLimit from :
  sim t1 t2 →
  query_result (with_clock w c1) (QueryWatchtower t1 gasLimit from)
  = query_result (with_clock w c2) (QueryWatchtower t2 gasLimit from).
Proof using Hblind. intros Hsim. unfold QueryWatchtower. sim_query Hsim. Qed.

Lemma QueryParticipantBalance_sim t1 t2 gasLimit from addr :
  sim t1 t2 →
  query_result (with_clock w c1) (QueryParticipantBalance t1 gasLimit from addr)
  = query_result (with_clock w c2) (QueryParticipantBalance t2 gasLimit from addr).
Proof using Hblind.
  intros Hsim. unfold QueryParticipantBalance. sim_query Hsim.
Qed.

Lemma QueryParticipantTotalStakedAmount_sim t1 t2 gasLimit from :
  sim t1 t2 →
  query_result (with_clock w c1)
    (QueryParticipantTotalStakedAmount t1 gasLimit from)
  = query_result (with_clock w c2)
      (QueryParticipantTotalStakedAmount t2 gasLimit from).
Proof using Hblind.
  intros Hsim. unfold QueryParticipantTotalStakedAmount. sim_query Hsim.
Qed.

(** Opening a context under the two clocks: the same failure, or two
    transitions the engine cannot tell apart. *)
Ltac open_both n1 n2 miner :=
  do 6 (rewrite result_call;
        cbn [world_handler Header.Number with_clock chain_head clock
             CalculateGasLimit]);
  destruct (CalculateGasLimit w _) as [?|?]; [done|];
  do 2 (rewrite result_call; cbn [world_handler with_clock BeginTxn]);
  let Hb := fresh "Hb" in
  pose proof (proj1 Hblind (Header.StateRoot (chain_head w))
                (nextHeader (chain_head w) 0)
                (uint64 (c1 n1)) (uint64 (c2 n2)) miner) as Hb;
  unfold nextHeader, with_timestamp in Hb; cbn in Hb;
  destruct (BeginTxn w _ _ _) as [?|?], (BeginTxn w _ _ _) as [?|?];
  [by subst|done|done|].

Ltac run_both Hfree :=
  rewrite (result_bind_clock_free (with_clock w c1)) by apply Hfree;
  rewrite (result_bind_clock_free (with_clock w c2)) by apply Hfree.

Lemma QueryActiveSequencers_sim t1 t2 gasLimit (n1 n2 : nat) :
  sim t1 t2 →
  let from := types.BytesToAddress (Header.Miner (chain_head w)) in
  result (world_handler (with_clock w c1))
    (QueryActiveSequencers t1 gasLimit from) n1
  = result (world_handler (with_clock w c2))
      (QueryActiveSequencers t2 gasLimit from) n2.
Proof using Hblind.
  intros Hsim from. subst from.
  unfold QueryActiveSequencers, types.Bytes.
  run_both QuerySequencers_clock_free.
  rewrite (QuerySequencers_sim _ _ _ _ Hsim).
  destruct (query_result _ _) as [addrs [e|]]; [done|].
  open_both n1 n2 (types.BytesToAddress (Header.Miner (chain_head w))).
  run_both QuerySequencersInProbation_clock_free.
  rewrite (QuerySequencersInProbation_sim _ _ _ _ Hb).
  by destruct (query_result _ _) as [? [?|]].
Qed.

Lemma Get_timestamp (nodeType : NodeType) (n1 n2 : nat) :
  result (world_handler (with_clock w c1))
    (activeParticipantsQuerier.Get nodeType) n1
  = result (world_handler (with_clock w c2))
      (activeParticipantsQuerier.Get nodeType) n2.
Proof using Hblind.
  unfold activeParticipantsQuerier.Get, types.Bytes.
  open_both n1 n2 (types.BytesToAddress (Header.Miner (chain_head w))).
  destruct (decide (nodeType = Sequencer));
    [|destruct (decide (nodeType = WatchTower)); [|done]].
  - pose (g := λ r : slice types.Address * option error,
               match r with
               | (_, Some err) => (None : slice types.Address, Some err)
               | (addrs, None) => (addrs, None)
               end).
    rewrite !(result_bind _ _ _ g) by (by intros [? [?|]] ?).
    f_equal. by apply QueryActiveSequencers_sim.
  - run_both QueryWatchtower_clock_free.
    rewrite (QueryWatchtower_sim _ _ _ _ Hb).
    by destruct (query_result _ _) as [? [?|]].
Qed.

Lemma Contains_timestamp (addr : types.Address) (nodeType : NodeType)
  (n1 n2 : nat) :
  result (world_handler (with_clock w c1))
    (activeParticipantsQuerier.Contains addr nodeType) n1
  = result (world_handler (with_clock w c2))
      (activeParticipantsQuerier.Contains addr nodeType) n2.
Proof using Hblind.
  unfold activeParticipantsQuerier.Contains.
  pose (g := λ r : slice types.Address * option error,
             match r with
             | (_, Some err) => (false, Some err)
             | (addrs, None) =>
                 (activeParticipantsQuerier.containsLoop (elems addrs) addr,
                  None)
             end).
  rewrite !(result_bind _ _ _ g).
  - f_equal. apply Get_timestamp.
  - intros [addrs [?|]] ?; [done|]. unfold g.
    by destruct (activeParticipantsQuerier.containsLoop _ _).
  - intros [addrs [?|]] ?; [done|]. unfold g.
    by destruct (activeParticipantsQuerier.containsLoop _ _).
Qed.

Lemma InProbation_timestamp (address : types.Address) (n1 n2 : nat) :
  result (world_handler (with_clock w c1))
    (activeParticipantsQuerier.InProbation address) n1
  = result (world_handler (with_clock w c2))
      (activeParticipantsQuerier.InProbation address) n2.
Proof using Hblind.
  unfold activeParticipantsQuerier.InProbation, types.Bytes.
  open_both n1 n2 (types.BytesToAddress (Header.Miner (chain_head w))).
  run_both QuerySequencersInProbation_clock_free.
  rewrite (QuerySequencersInProbation_sim _ _ _ _ Hb).
  by destruct (query_result _ _) as [? [?|]].
Qed.

Lemma GetBalance_timestamp (address : types.Address) (n1 n2 : nat) :
  result (world_handler (with_clock w c1))
    (activeParticipantsQuerier.GetBalance address) n1
  = result (world_handler (with_clock w c2))
      (activeParticipantsQuerier.GetBalance address) n2.
Proof using Hblind.
  unfold activeParticipantsQuerier.GetBalance, types.Bytes.
  open_both n1 n2 (types.BytesToAddress (Header.Miner (chain_head w))).
  run_both QueryParticipantBalance_clock_free.
  rewrite (QueryParticipantBalance_sim _ _ _ _ _ Hb).
  by destruct (query_result _ _) as [? [?|]].
Qed.

Lemma GetTotalStakedAmount_timestamp (n1 n2 : nat) :
  result (world_handler (with_clock w c1))
    activeParticipantsQuerier.GetTotalStakedAmount n1
  = result (world_handler (with_clock w c2))
      activeParticipantsQuerier.GetTotalStakedAmount n2.
Proof using Hblind.
  unfold activeParticipantsQuerier.GetTotalStakedAmount, types.Bytes.
  open_both n1 n2 (types.BytesToAddress (Header.Miner (chain_head w))).
  run_both QueryParticipantTotalStakedAmount_clock_free.
  rewrite (QueryParticipantTotalStakedAmount_sim _ _ _ _ Hb).
  by destruct (query_result _ _) as [? [?|]].
Qed.

End TimestampBlind.

End QuiescentWorld.

(** ** The claims that hold for every handler *)
(** ** [Get(Sequencer)] when the head is read again *)
Section Rereading.
Context {ext : Externals}.

#[local] Arguments QuerySequencers : simpl never.
#[local] Arguments QuerySequencersInProbation : simpl never.

(** A query reads no head and opens no transition. *)
Lemma QuerySequencers_in_context {S} (h : Handler S) (s : S) t gasLimit from :
  let tr := trace h (QuerySequencers t gasLimit from) s in
  heads tr = [] ∧ begin_roots tr = [] ∧ begin_headers tr = [].
Proof.
  unfold trace, QuerySequencers, heads, begin_roots, begin_headers.
  destruct (StakingABI_Methods !! _) as [m|]; [|done]. cbn.
  destruct (h _ _ s) as [nonce s1].
  destruct (h _ _ s1) as [[e|res] s2]; [done|].
  by destruct (ExecutionResult.Failed res).
Qed.

Lemma QuerySequencersInProbation_in_context {S} (h : Handler S) (s : S)
  t gasLimit from :
  let tr := trace h (QuerySequencersInProbation t gasLimit from) s in
  heads tr = [] ∧ begin_roots tr = [] ∧ begin_headers tr = [].
Proof.
  unfold trace, QuerySequencersInProbation, heads, begin_roots, begin_headers.
  destruct (StakingABI_Methods !! _) as [m|]; [|done]. cbn.
  destruct (h _ _ s) as [nonce s1].
  destruct (h _ _ s1) as [[e|res] s2]; [done|].
  by destruct (ExecutionResult.Failed res).
Qed.

(** C1 (probation exclusion).  Whatever the collaborators are, when
    the context opens on the head [head1], the role-set query returns
    [R], the chain then reports the head [head2], a second context
    opens on it and the probation query there returns [P], then
    [Get(Sequencer)] returns exactly the addresses of [R] that are not
    in [P], in the order of [R], nothing added and nothing else
    dropped.  The probation query runs on a second transition, opened
    after the first query at the state root, hash and number of the
    head as it is read again, for the miner of the first head; the two
    transitions are at one head exactly when the two readings agree in
    these. *)
Theorem Get_Sequencer_filters_at_the_head_read_again {ok : ExternalsOK ext} {S}
  (h : Handler S) (s s1 s2 s3 s4 s5 s6 s7 s8 s9 s10 : S)
  (head1 head2 : Header.t) (now1 now2 gasLimit1 gasLimit2 : Z)
  (t1 t2 : Transition) (R P : list types.Address) (trR trP : list Call) :
  let miner := types.BytesToAddress (Header.Miner head1) in
  let tr := opening head1 now1 gasLimit1 miner t1 ++ trR
            ++ opening head2 now2 gasLimit2 miner t2 ++ trP in
  h _ blockchain_Header s = (head1, s1) →
  h _ time_Now_Unix s1 = (now1, s2) →
  h _ (blockchain_CalculateGasLimit (uint64 (Header.Number head1 + 1))) s2
    = (inr gasLimit1, s3) →
  h _ (executor_BeginTxn (Header.StateRoot head1)
         (headerOn head1 now1 miner) miner) s3 = (inr t1, s4) →
  interp h (QuerySequencers t1 gasLimit1 miner) s4 = ((Some R, None), s5, trR) →
  h _ blockchain_Header s5 = (head2, s6) →
  h _ time_Now_Unix s6 = (now2, s7) →
  h _ (blockchain_CalculateGasLimit (uint64 (Header.Number head2 + 1))) s7
    = (inr gasLimit2, s8) →
  h _ (executor_BeginTxn (Header.StateRoot head2)
         (headerOn head2 now2 miner) miner) s8 = (inr t2, s9) →
  interp h (QuerySequencersInProbation t2 gasLimit2 miner) s9
    = ((Some P, None), s10, trP) →
  interp h (activeParticipantsQuerier.Get Sequencer) s
    = ((Some (exclude_probation R P), None), s10, tr) ∧
  (∀ a, a ∈ exclude_probation R P ↔ a ∈ R ∧ a ∉ P) ∧
  sublist (exclude_probation R P) R ∧
  (NoDup R → NoDup (exclude_probation R P)) ∧
  heads tr = [head1; head2] ∧
  begin_roots tr = [Header.StateRoot head1; Header.StateRoot head2] ∧
  (contexts_at_first_head tr ↔
     Header.StateRoot head2 = Header.StateRoot head1 ∧
     Header.Hash head2 = Header.Hash head1 ∧
     uint64 (Header.Number head2 + 1) = uint64 (Header.Number head1 + 1)).
Proof.
  intros miner tr Hh1 Hn1 Hg1 Hb1 HR Hh2 Hn2 Hg2 Hb2 HP.
  pose proof (QuerySequencers_in_context h s4 t1 gasLimit1 miner)
    as (HhR & HrR & HbR).
  pose proof (QuerySequencersInProbation_in_context h s9 t2 gasLimit2 miner)
    as (HhP & HrP & HbP).
  unfold trace in HhR, HrR, HbR, HhP, HrP, HbP.
  rewrite HR in HhR, HrR, HbR. rewrite HP in HhP, HrP, HbP.
  cbn [snd] in HhR, HrR, HbR, HhP, HrP, HbP.
  assert (heads tr = [head1; head2]) as Hheads.
  { subst tr. unfold heads in *. rewrite !omap_app, HhR, HhP. done. }
  assert (begin_roots tr = [Header.StateRoot head1; Header.StateRoot head2])
    as Hroots.
  { subst tr. unfold begin_roots in *. rewrite !omap_app, HrR, HrP. done. }
  assert (begin_headers tr
          = [headerOn head1 now1 miner; headerOn head2 now2 miner]) as Hheaders.
  { subst tr. unfold begin_headers in *. rewrite !omap_app, HbR, HbP. done. }
  split.
  { unfold activeParticipantsQuerier.Get.
    rewrite interp_call, Hh1. fold miner.
    rewrite interp_call, Hn1.
    rewrite interp_call. cbn [Header.Number]. rewrite Hg1.
    rewrite interp_call. fold (headerOn head1 now1 miner). rewrite Hb1.
    rewrite decide_True by done.
    rewrite interp_bind. unfold QueryActiveSequencers.
    rewrite interp_bind.
    pose proof HR as HR'. unfold slice in HR' |- *. rewrite HR'. clear HR'.
    rewrite interp_call, Hh2.
    rewrite interp_call, Hn2.
    rewrite interp_call. cbn [Header.Number]. rewrite Hg2.
    rewrite interp_call. fold (headerOn head2 now2 miner). rewrite Hb2.
    rewrite interp_bind.
    pose proof HP as HP'. unfold slice in HP' |- *. rewrite HP'. clear HP'.
    cbn. rewrite mainLoop_spec, app_nil_l, !app_nil_r. done. }
  split; [apply exclude_probation_elem_of|].
  split; [apply exclude_probation_sublist|].
  split; [apply exclude_probation_NoDup|].
  split; [done|]. split; [done|].
  unfold contexts_at_first_head. rewrite Hheads, Hroots, Hheaders. split.
  - intros (parent & [= <-] & Hr & Hb).
    apply Forall_cons in Hr as [_ [Hr _]%Forall_cons].
    apply Forall_cons in Hb as [_ [[Hhash Hnum] _]%Forall_cons].
    done.
  - intros (Hroot & Hhash & Hnum). exists head1. split; [done|].
    split; repeat constructor; done.
Qed.

End Rereading.

Section Claims.
Context {ext : Externals}.

(** C2 (unsupported node type).  For a node type that is neither
    [Sequencer] nor [WatchTower], [Get] opens the context first (head,
    clock, gas limit, transition), never submits a transaction to the
    contract and never returns a list; an error reported while the
    context is opened is the error returned, and when none is reported
    the run is exactly those four calls and the error is the
    node-type one. *)
Theorem Get_unsupported_node_type {S} (h : Handler S) (s : S)
  (nodeType : NodeType) :
  nodeType ≠ Sequencer → nodeType ≠ WatchTower →
  let out := result h (activeParticipantsQuerier.Get nodeType) s in
  let tr := trace h (activeParticipantsQuerier.Get nodeType) s in
  opens_context tr ∧
  Forall (λ c, is_contract_call c = false) tr ∧
  out.1 = None ∧
  (∀ e, e ∈ omap call_error tr → out = (None, Some e)) ∧
  (omap call_error tr = [] →
     out = (None, Some (unsupportedNodeType nodeType)) ∧ length tr = 4%nat).
Proof.
  intros HS HW out tr.
  destruct (Get_unsupported h s nodeType HS HW) as (Hctx & Hcalls & Herr & Hok).
  repeat split; try done.
  - subst out. destruct (omap call_error tr) as [|e l] eqn:Hl.
    + by rewrite (proj1 (Hok Hl)).
    + rewrite (Herr e); [done|]. fold tr. rewrite Hl. left.
  - by apply Hok.
  - by apply Hok.
Qed.

(** C4 (containment).  [Contains(a, r)] runs [Get(r)]; when that
    returns a list without error, [Contains] returns no error and a
    boolean that is true exactly when [a] is an element of the list. *)
Theorem Contains_iff_in_Get {S} (h : Handler S) (s : S) (addr : types.Address)
  (nodeType : NodeType) (addrs : slice types.Address) :
  result h (activeParticipantsQuerier.Get nodeType) s = (addrs, None) →
  ∃ b, result h (activeParticipantsQuerier.Contains addr nodeType) s = (b, None) ∧
       (b = true ↔ addr ∈ elems addrs).
Proof.
  intros HGet. exists (bool_decide (addr ∈ elems addrs)).
  split; [by apply Contains_after_Get|apply bool_decide_eq_true].
Qed.

(** C6 (the speculative header).  Each of the five operations reads the
    head and the clock, asks the calculator for the gas limit of the
    next number, and opens a transition at the head's state root with
    this header: parent hash the head's hash, number the head's plus
    one, miner the head's as a twenty-byte address, zero nonce, the gas
    limit of the head itself, the clock reading as timestamp.  A
    twenty-byte miner is copied unchanged.  In a quiescent world every
    transition of a run, the second one of [Get(Sequencer)] included,
    is opened this way. *)
Theorem operations_open_context {S} (h : Handler S) (s : S)
  (addr : types.Address) (nodeType : NodeType) :
  opens_context (trace h (activeParticipantsQuerier.Get nodeType) s) ∧
  opens_context (trace h (activeParticipantsQuerier.Contains addr nodeType) s) ∧
  opens_context (trace h (activeParticipantsQuerier.InProbation addr) s) ∧
  opens_context (trace h (activeParticipantsQuerier.GetBalance addr) s) ∧
  opens_context (trace h activeParticipantsQuerier.GetTotalStakedAmount s) ∧
  (∀ miner : list byte,
     length miner = 20%nat → types.BytesToAddress miner = miner) ∧
  (∀ (w : World) (n : nat),
     let hw := world_handler w in
     Forall (opened_at_head w)
       (trace hw (activeParticipantsQuerier.Get nodeType) n) ∧
     Forall (opened_at_head w)
       (trace hw (activeParticipantsQuerier.Contains addr nodeType) n) ∧
     Forall (opened_at_head w)
       (trace hw (activeParticipantsQuerier.InProbation addr) n) ∧
     Forall (opened_at_head w)
       (trace hw (activeParticipantsQuerier.GetBalance addr) n) ∧
     Forall (opened_at_head w)
       (trace hw activeParticipantsQuerier.GetTotalStakedAmount n)).
Proof.
  split; [apply Get_opens_context|].
  split; [apply Contains_opens_context|].
  split; [apply InProbation_opens_context|].
  split; [apply GetBalance_opens_context|].
  split; [apply GetTotalStakedAmount_opens_context|].
  split; [apply BytesToAddress_20|].
  intros w n hw.
  split; [apply Get_opened_at_head|].
  split; [apply Contains_opened_at_head|].
  split; [apply InProbation_opened_at_head|].
  split; [apply GetBalance_opened_at_head|].
  apply GetTotalStakedAmount_opened_at_head.
Qed.

(** C10 (the dumb implementation).  Behind the interface,
    [DumbActiveParticipants] calls nothing and answers with constants:
    [Contains] and [InProbation] with [(true, nil)], [Get],
    [GetBalance] and [GetTotalStakedAmount] with [(nil, nil)]. *)
Theorem DumbActiveParticipants_constant {S} (h : Handler S) (s : S)
  (addr : types.Address) (nodeType : NodeType) :
  let dasq := dumbActiveParticipants in
  interp h (Get dasq nodeType) s = ((None, None), s, []) ∧
  interp h (Contains dasq addr nodeType) s = ((true, None), s, []) ∧
  interp h (InProbation dasq addr) s = ((true, None), s, []) ∧
  interp h (GetBalance dasq addr) s = ((None, None), s, []) ∧
  interp h (GetTotalStakedAmount dasq) s = ((None, None), s, []).
Proof. by repeat split. Qed.

End Claims.

(** ** The timestamp, for engines that are blind to it *)
Section Timestamp.
Context {ext : Externals}.

(** C9 (the timestamp).  The resolver uses the clock reading only as
    the timestamp of the header it hands to the engine.  For an engine
    that is blind to that field, two invocations on the same head and
    contract state under any two clocks return equal results, for each
    of the five operations. *)
Theorem timestamp_only_through_engine (w : World)
  (sim : Transition → Transition → Prop) :
  timestamp_blind w sim →
  ∀ (c1 c2 : nat → Z) (n1 n2 : nat) (addr : types.Address)
    (nodeType : NodeType),
    let h1 := world_handler (with_clock w c1) in
    let h2 := world_handler (with_clock w c2) in
    result h1 (activeParticipantsQuerier.Get nodeType) n1
      = result h2 (activeParticipantsQuerier.Get nodeType) n2 ∧
    result h1 (activeParticipantsQuerier.Contains addr nodeType) n1
      = result h2 (activeParticipantsQuerier.Contains addr nodeType) n2 ∧
    result h1 (activeParticipantsQuerier.InProbation addr) n1
      = result h2 (activeParticipantsQuerier.InProbation addr) n2 ∧
    result h1 (activeParticipantsQuerier.GetBalance addr) n1
      = result h2 (activeParticipantsQuerier.GetBalance addr) n2 ∧
    result h1 activeParticipantsQuerier.GetTotalStakedAmount n1
      = result h2 activeParticipantsQuerier.GetTotalStakedAmount n2 ∧
    (∀ t1 t2 gasLimit from,
       sim t1 t2 →
       result h1 (QueryParticipants t1 gasLimit from) n1
       = result h2 (QueryParticipants t2 gasLimit from) n2).
Proof.
  intros Hblind c1 c2 n1 n2 addr nodeType h1 h2. subst h1 h2.
  split; [by eapply Get_timestamp|].
  split; [by eapply Contains_timestamp|].
  split; [by eapply InProbation_timestamp|].
  split; [by eapply GetBalance_timestamp|].
  split; [by eapply GetTotalStakedAmount_timestamp|].
  intros t1 t2 gasLimit from Hsim. unfold result.
  rewrite !clock_free_interp by apply QueryParticipants_clock_free.
  by eapply QueryParticipants_sim.
Qed.

End Timestamp.

(** ** The concrete setting meets the assumptions *)
Section ScenarioFacts.
Import Scenario.

Lemma unhex_digit_pair (b : byte) :
  Byte.of_N (unhex_digit (hex_digit (Byte.to_N b / 16)) * 16
             + unhex_digit (hex_digit (Byte.to_N b mod 16)))
  = Some b.
Proof. by destruct b. Qed.

Lemma unhex_hex (l : list byte) : unhex (hex l) = l.
Proof.
  induction l as [|b l IH]; [done|].
  cbn [hex unhex]. by rewrite unhex_digit_pair, IH.
Qed.

Lemma EncodeToHex_inj (a b : types.Address) :
  EncodeToHex a = EncodeToHex b → a = b.
Proof.
  unfold EncodeToHex. intros [= Heq].
  change (hex a = hex b) in Heq.
  by rewrite <- (unhex_hex a), <- (unhex_hex b), Heq.
Qed.

Lemma ext_ok : ExternalsOK Scenario.ext.
Proof. split; [done|apply EncodeToHex_inj]. Qed.

End ScenarioFacts.

(** ** The claims at concrete inputs *)
Section Examples.
Import Scenario.

Lemma Get_Sequencer_excludes_probation_witness :
  result (world_handler w0) (activeParticipantsQuerier.Get "sequencer") 0%nat
  = (Some [A; C], None).
Proof.
  refine (proj1 (Get_Sequencer_excludes_probation (ok := ext_ok)
                   w0 0 8000000 (opened 0) (opened 1) [A; B; C] [B]
                   _ _ _ _ _)); reflexivity.
Defined.

(** Against C2 as stated: with a node type outside the two, [Get] has
    already called the chain and the engine when it fails, and on a
    chain without history the error is the calculator's. *)
Lemma Get_unsupported_reaches_engine :
  existsb is_engine_call
    (trace (world_handler w0) (activeParticipantsQuerier.Get "Validator") 0%nat)
    = true ∧
  length (trace (world_handler w0)
            (activeParticipantsQuerier.Get "Validator") 0%nat) = 4%nat ∧
  result (world_handler (no_history_world (contract [A; B; C] [B] [B; C])))
    (activeParticipantsQuerier.Get "Validator") 0%nat
    = (None, Some "gas limit: missing history") ∧
  unsupportedNodeType "Validator" ≠ "gas limit: missing history".
Proof. by repeat split. Qed.

Lemma Get_unsupported_node_type_witness :
  result (world_handler w0) (activeParticipantsQuerier.Get "Validator") 0%nat
  = (None, Some (unsupportedNodeType "Validator")).
Proof.
  refine (proj1 (proj2 (proj2 (proj2 (proj2
    (Get_unsupported_node_type (world_handler w0) 0%nat "Validator" _ _)))) _));
    done.
Defined.


Lemma Contains_iff_in_Get_witness :
  ∃ b, result (world_handler w0)
         (activeParticipantsQuerier.Contains B "sequencer") 0%nat = (b, None) ∧
       (b = true ↔ B ∈ [A; C]).
Proof.
  exact (Contains_iff_in_Get (world_handler w0) 0%nat B "sequencer"
           (Some [A; C]) eq_refl).
Defined.

Lemma Get_WatchTower_ignores_probation_witness :
  result (world_handler w0) (activeParticipantsQuerier.Get "watchtower") 0%nat
  = (Some [B; C], None).
Proof.
  refine (proj1 (Get_WatchTower_ignores_probation (ok := ext_ok)
                   w0 0 8000000 (opened 0) [B; C] [B] _ _ _ _)); reflexivity.
Defined.

(** Against C6 as stated: the header the transitions are opened with
    carries the gas limit of the head, 5000, not the 8000000 the
    calculator returned for its number. *)
Lemma header_gas_limit_is_inherited :
  let tr := trace (world_handler w0)
              (activeParticipantsQuerier.Get "sequencer") 0%nat in
  Header.GasLimit <$> begin_headers tr = [5000; 5000] ∧
  Header.Number <$> begin_headers tr = [8; 8] ∧
  calculated_gas_limits tr = [8000000; 8000000] ∧
  Header.GasLimit head = 5000.
Proof. by repeat split. Qed.

Lemma operations_open_context_witness :
  opens_context
    (trace (world_handler w0) (activeParticipantsQuerier.Get "sequencer") 0%nat) ∧
  types.BytesToAddress (Header.Miner head) = Header.Miner head.
Proof.
  destruct (operations_open_context (world_handler w0) 0%nat A "sequencer")
    as (HGet & _ & _ & _ & _ & Hminer & _).
  split; [exact HGet|]. apply Hminer. reflexivity.
Defined.

Lemma InProbation_iff_in_probation_set_witness :
  ∃ b, result (world_handler w0)
         (activeParticipantsQuerier.InProbation B) 0%nat = (b, None) ∧
       (b = true ↔ B ∈ [B]).
Proof.
  refine (proj1 (InProbation_iff_in_probation_set
                   w0 0 8000000 (opened 0) [B] B _ _ _)); reflexivity.
Defined.

Lemma stake_amount_decoding_witness :
  result (world_handler w0) (activeParticipantsQuerier.GetBalance A) 0%nat
    = (Some (2 ^ 255 + 12345), None) ∧
  result (world_handler w0) (activeParticipantsQuerier.GetBalance B) 0%nat
    = (Some 0, None) ∧
  result (world_handler w0) activeParticipantsQuerier.GetTotalStakedAmount 0%nat
    = (Some (2 ^ 256 - 1), None).
Proof.
  split; [|split].
  - refine (proj1 (stake_amount_decoding w0 0 8000000 (opened 0) 32
                     (2 ^ 255 + 12345) _ eq_refl eq_refl)
              A (abi.mkMethod selAccountStaked encodeAddr decodeUint)
              (replicate 12 x00 ++ A) eq_refl eq_refl eq_refl).
    by vm_compute.
  - refine (proj1 (stake_amount_decoding w0 0 8000000 (opened 0) 32 0
                     _ eq_refl eq_refl)
              B (abi.mkMethod selAccountStaked encodeAddr decodeUint)
              (replicate 12 x00 ++ B) eq_refl eq_refl eq_refl).
    by vm_compute.
  - refine (proj1 (proj2 (stake_amount_decoding w0 0 8000000 (opened 0) 32
                            (2 ^ 256 - 1) _ eq_refl eq_refl))
              (abi.mkMethod selStaked encodeNone decodeUint) eq_refl eq_refl).
    by vm_compute.
Defined.

(** Against C9 as stated: an engine that shows the contract the
    timestamp of the header, and a probation that ends at 1500.  Same
    head, same contract, two clocks, two answers. *)
Lemma timestamp_reaches_contract :
  result (world_handler (with_clock timed_world (λ _, 1000)))
    (activeParticipantsQuerier.Get "sequencer") 0%nat
    = (Some [A; C], None) ∧
  result (world_handler (with_clock timed_world (λ _, 2000)))
    (activeParticipantsQuerier.Get "sequencer") 0%nat
    = (Some [A; B; C], None).
Proof. by split. Qed.

(** The two scenarios of the specification: [R = [A, B, C]], [P = [B]],
    and the empty role set. *)
Example scenario_probation :
  let h := world_handler w0 in
  result h (activeParticipantsQuerier.Get Sequencer) 0%nat
    = (Some [A; C], None) ∧
  result h (activeParticipantsQuerier.Contains B Sequencer) 0%nat
    = (false, None) ∧
  result h (activeParticipantsQuerier.InProbation B) 0%nat = (true, None) ∧
  result h (activeParticipantsQuerier.InProbation A) 0%nat = (false, None).
Proof. by repeat split. Qed.

Example scenario_empty_role_set :
  let h := world_handler (world (contract [] [B] []) clk) in
  result h (activeParticipantsQuerier.Get Sequencer) 0%nat = (Some [], None) ∧
  result h (activeParticipantsQuerier.Contains A Sequencer) 0%nat
    = (false, None).
Proof. by repeat split. Qed.

Lemma w0_timestamp_blind : timestamp_blind w0 (λ _ _, True).
Proof. by repeat split. Qed.

Lemma timestamp_only_through_engine_witness :
  result (world_handler (with_clock w0 clk))
    (activeParticipantsQuerier.Get "sequencer") 0%nat
  = result (world_handler (with_clock w0 (λ _, 0)))
      (activeParticipantsQuerier.Get "sequencer") 5%nat.
Proof.
  exact (proj1 (timestamp_only_through_engine w0 (λ _ _, True)
                  w0_timestamp_blind clk (λ _, 0) 0%nat 5%nat B "sequencer")).
Defined.

End Examples.

Section RereadingExamples.
Import Scenario MovingHead.

Lemma Get_Sequencer_filters_at_the_head_read_again_witness :
  interp handler (activeParticipantsQuerier.Get "sequencer") 0%nat
  = ((Some [B; C], None), 2%nat,
     trace handler (activeParticipantsQuerier.Get "sequencer") 0%nat).
Proof.
  refine (proj1 (Get_Sequencer_filters_at_the_head_read_again (ok := ext_ok)
                   handler 0%nat 0%nat 1%nat 1%nat 1%nat 1%nat 1%nat 2%nat
                   2%nat 2%nat 2%nat head head' (clk 0) (clk 1)
                   8000000 8000000
                   (headerOn head (clk 0) (Header.Miner head))
                   (headerOn head' (clk 1) (Header.Miner head))
                   [A; B; C] [A] _ _
                   eq_refl eq_refl eq_refl eq_refl eq_refl
                   eq_refl eq_refl eq_refl eq_refl eq_refl)).
Defined.

(** Against C1 as stated: when the chain advances between the two
    readings of the head, the probation query runs on a transition
    opened at another head than the role-set query, at state root
    [0x18...] and number 9 instead of [0x17...] and 8, and the list
    returned keeps [B], on probation at the first head, and drops [A],
    on probation at the second. *)
Lemma second_context_at_another_head :
  let tr := trace handler (activeParticipantsQuerier.Get "sequencer") 0%nat in
  result handler (activeParticipantsQuerier.Get "sequencer") 0%nat
    = (Some [B; C], None) ∧
  heads tr = [head; head'] ∧
  begin_roots tr = [replicate 32 x17; replicate 32 x18] ∧
  Header.Number <$> begin_headers tr = [8; 9] ∧
  Header.Miner <$> begin_headers tr = [Header.Miner head; Header.Miner head] ∧
  ¬ contexts_at_first_head tr.
Proof.
  repeat split.
  intros (parent & Hparent & Hroots & _).
  injection Hparent as <-.
  apply Forall_cons in Hroots as [_ [Hroot _]%Forall_cons].
  discriminate Hroot.
Qed.

End RereadingExamples.

(** * Further properties of the code *)

(** ** What every run of the resolver submits *)
Section Protocol.
Context {ext : Externals}.

Lemma DecodeParticipants_shape (m : abi.Method) (rv : list byte) :
  (∃ l, DecodeParticipants m rv = (Some l, None)) ∨
  (∃ e, DecodeParticipants m rv = (None, Some e)).
Proof.
  unfold DecodeParticipants.
  destruct (abi.Outputs_Decode m rv) as [e|[]]; eauto.
  destruct (abi.index _ _); eauto.
Qed.

Ltac run_step h :=
  match goal with
  | |- context [h ?X ?e ?s] => destruct (h X e s) as [? ?]
  | |- context [match ?x with inl _ => _ | inr _ => _ end] =>
      is_var x; destruct x
  | |- context [StakingABI_Methods !! ?k] =>
      destruct (StakingABI_Methods !! k) eqn:?
  | |- context [abi.Inputs_Encode ?m ?v] =>
      destruct (abi.Inputs_Encode m v) eqn:?
  | |- context [ExecutionResult.Failed ?r] =>
      is_var r; destruct r as [? [?|]]
  | |- context [DecodeParticipants ?m ?rv] =>
      destruct (DecodeParticipants_shape m rv) as [[? ->]|[? ->]]
  | |- context [activeParticipantsQuerier.containsLoop ?l ?a] =>
      destruct (activeParticipantsQuerier.containsLoop l a)
  end.

Ltac run h := repeat (cbn -[omap]; run_step h).

Ltac unfold_all :=
  unfold result, trace,
    activeParticipantsQuerier.Contains,
    activeParticipantsQuerier.Get,
    activeParticipantsQuerier.InProbation,
    activeParticipantsQuerier.GetBalance,
    activeParticipantsQuerier.GetTotalStakedAmount,
    QueryActiveSequencers, QuerySequencers, QueryWatchtower,
    QuerySequencersInProbation, QueryParticipantBalance,
    QueryParticipantTotalStakedAmount, QueryParticipants, types.Bytes,
    methods_of_Get.

Ltac split_node nodeType :=
  destruct (decide (nodeType = Sequencer));
    [|destruct (decide (nodeType = WatchTower))].

Ltac close_protocol :=
  unfold query_protocol, read_only_calls, nonce_discipline,
    one_per_transition, calls_methods, inputs, methodID, applied,
    nonce_reads, opened_transitions, calculated_gas_limits, heads;
  cbn;
  split; [repeat constructor; apply length_BytesToAddress|];
  split; [done|];
  split; [eexists; reflexivity|];
  split; [|lia];
  repeat match goal with H : _ !! _ = _ |- _ => rewrite H end;
  cbn; eexists; reflexivity.

Lemma Get_protocol {S} (h : Handler S) (s : S) (nodeType : NodeType) :
  query_protocol (methods_of_Get nodeType)
    (trace h (activeParticipantsQuerier.Get nodeType) s).
Proof. unfold_all. split_node nodeType; run h; close_protocol. Qed.

Lemma Contains_protocol {S} (h : Handler S) (s : S) (addr : types.Address)
  (nodeType : NodeType) :
  query_protocol (methods_of_Get nodeType)
    (trace h (activeParticipantsQuerier.Contains addr nodeType) s).
Proof. unfold_all. split_node nodeType; run h; close_protocol. Qed.

Lemma InProbation_protocol {S} (h : Handler S) (s : S) (addr : types.Address) :
  query_protocol ["GetCurrentSequencersInProbation"]
    (trace h (activeParticipantsQuerier.InProbation addr) s).
Proof. unfold_all. run h; close_protocol. Qed.

Lemma GetTotalStakedAmount_protocol {S} (h : Handler S) (s : S) :
  query_protocol ["GetCurrentStakedAmount"]
    (trace h activeParticipantsQuerier.GetTotalStakedAmount s).
Proof. unfold_all. run h; close_protocol. Qed.

Lemma GetBalance_protocol {S} (h : Handler S) (s : S) (address : types.Address) :
  let tr := trace h (activeParticipantsQuerier.GetBalance address) s in
  read_only_calls tr ∧ nonce_discipline tr ∧ one_per_transition tr ∧
  calls_balance_method address tr ∧
  (length (opened_transitions tr) ≤ 1)%nat.
Proof.
  unfold_all. run h;
    unfold read_only_calls, nonce_discipline, one_per_transition,
      calls_balance_method, inputs, applied, nonce_reads,
      opened_transitions, calculated_gas_limits, heads;
    cbn;
    (split; [repeat constructor; apply length_BytesToAddress|]);
    (split; [done|]);
    (split; [eexists; reflexivity|]);
    (split; [|lia]);
    first [by left | right; eauto].
Qed.

(** A list on success, nothing on error. *)
Lemma Get_nil_iff_error {S} (h : Handler S) (s : S) (nodeType : NodeType) :
  let out := result h (activeParticipantsQuerier.Get nodeType) s in
  out.1 = None ↔ out.2 ≠ None.
Proof. unfold_all. split_node nodeType; run h; cbn; by split. Qed.

Lemma GetBalance_nil_iff_error {S} (h : Handler S) (s : S)
  (address : types.Address) :
  let out := result h (activeParticipantsQuerier.GetBalance address) s in
  out.1 = None ↔ out.2 ≠ None.
Proof. unfold_all. run h; cbn; by split. Qed.

Lemma GetTotalStakedAmount_nil_iff_error {S} (h : Handler S) (s : S) :
  let out := result h activeParticipantsQuerier.GetTotalStakedAmount s in
  out.1 = None ↔ out.2 ≠ None.
Proof. unfold_all. run h; cbn; by split. Qed.

(** X10 ([QueryParticipants]).  The query no operation calls behaves
    like the others: with the method missing from the table it calls
    nothing; otherwise it reads the nonce and applies one read-only
    transaction with the method's selector; an error of the call or of
    the contract is the error returned; and it returns a nil list
    exactly when it returns an error. *)
Theorem QueryParticipants_protocol {S} (h : Handler S) (s : S) (t : Transition)
  (gasLimit : Z) (from : types.Address) :
  let out := result h (QueryParticipants t gasLimit from) s in
  let tr := trace h (QueryParticipants t gasLimit from) s in
  fails_closed None out tr ∧
  (out.1 = None ↔ out.2 ≠ None) ∧
  match StakingABI_Methods !! "GetCurrentParticipants" with
  | None => tr = []
  | Some m =>
      ∃ nonce r,
        tr = [mkCall (Transition_GetNonce t from) nonce;
              mkCall (Transition_Apply t
                        (queryTx from (abi.ID m) gasLimit nonce)) r]
  end.
Proof.
  unfold_all. unfold fails_closed, queryTx. run h; cbn.
  all: split; [split; [|by intros ? [= <-] || by intros ? [=]]|].
  all: try (intros ? Hin;
            repeat (apply elem_of_cons in Hin as [->|Hin]; [done|]);
            by apply elem_of_nil in Hin).
  all: split; [by split|]; eauto.
Qed.

End Protocol.

Section Pure.
Context {ext : Externals}.

Lemma index_missing (results : list (string * abi.value)) (key : string) :
  (∀ v, (key, v) ∉ results) → abi.index results key = abi.Nil.
Proof.
  induction results as [|[k v] rest IH]; intros Hkey; [done|].
  cbn [abi.index]. destruct (decide (k = key)) as [->|_].
  - destruct (Hkey v). left.
  - apply IH. intros v' Hin. apply (Hkey v'). by right.
Qed.

(** X6 (decoding participants).  [DecodeParticipants] returns a list
    exactly when the codec decodes the buffer to a map whose entry
    ["0"] is an address list, and then that list as it is; a codec
    error is handed on; a map without the key ["0"] is a type-assertion
    error, not an empty list; and the outcome is always either a list
    or an error, never both and never neither. *)
Theorem DecodeParticipants_outcomes (m : abi.Method) (buf : list byte) :
  (∀ l, DecodeParticipants m buf = (Some l, None) ↔
        ∃ results, abi.Outputs_Decode m buf = inr (abi.Map results) ∧
                   abi.index results "0" = abi.Addresses l) ∧
  (∀ e, abi.Outputs_Decode m buf = inl e →
        DecodeParticipants m buf = (None, Some e)) ∧
  (∀ results,
     abi.Outputs_Decode m buf = inr (abi.Map results) →
     (∀ v, ("0", v) ∉ results) →
     DecodeParticipants m buf
     = (None, Some "failed type assertion from results[0] to []ethgo.Address")) ∧
  ((∃ l, DecodeParticipants m buf = (Some l, None)) ∨
   (∃ e, DecodeParticipants m buf = (None, Some e))).
Proof.
  split; [|split; [|split]].
  - intros l. unfold DecodeParticipants, types.Address_of_ethgo. split.
    + destruct (abi.Outputs_Decode m buf) as [e|[| results | | |]];
        try discriminate.
      destruct (abi.index results "0") eqn:Hidx; try discriminate.
      intros [= <-]. exists results. by rewrite map_id.
    + intros (results & -> & ->). by rewrite map_id.
  - intros e He. unfold DecodeParticipants. by rewrite He.
  - intros results Hres Hkey. unfold DecodeParticipants.
    by rewrite Hres, index_missing.
  - apply DecodeParticipants_shape.
Qed.

(** The inner loop only asks whether the printed address is among the
    printed probation addresses. *)
Lemma probationLoop_strings (addr : types.Address)
  (probationAddrs : list types.Address) :
  probationLoop addr probationAddrs
  = bool_decide (Address_String addr ∈ Address_String <$> probationAddrs).
Proof.
  induction probationAddrs as [|p rest IH].
  - symmetry. apply bool_decide_eq_false_2, not_elem_of_nil.
  - cbn [probationLoop fmap list_fmap].
    destruct (decide (Address_String addr = Address_String p)) as [Hp|Hp].
    + symmetry. apply bool_decide_eq_true_2. rewrite Hp. left.
    + rewrite IH. apply bool_decide_ext. rewrite elem_of_cons.
      split; [by right|]. by intros [?|?].
Qed.

Lemma mainLoop_app (addrs1 addrs2 probationAddrs toReturn : list types.Address) :
  mainLoop (addrs1 ++ addrs2) probationAddrs toReturn
  = mainLoop addrs2 probationAddrs (mainLoop addrs1 probationAddrs toReturn).
Proof.
  revert toReturn.
  induction addrs1 as [|a rest IH]; intros toReturn; [done|].
  cbn [app mainLoop]. by destruct (probationLoop a probationAddrs).
Qed.

Lemma mainLoop_probation_as_set (R P P' toReturn : list types.Address) :
  (∀ a, a ∈ P ↔ a ∈ P') →
  mainLoop R P toReturn = mainLoop R P' toReturn.
Proof.
  intros HP. revert toReturn.
  induction R as [|a rest IH]; intros toReturn; [done|].
  cbn [mainLoop]. rewrite !probationLoop_strings.
  assert (bool_decide (Address_String a ∈ Address_String <$> P)
          = bool_decide (Address_String a ∈ Address_String <$> P')) as ->.
  { apply bool_decide_ext. rewrite !list_elem_of_fmap.
    split; intros (p & ? & Hp); exists p; (split; [done|]); by apply HP. }
  by destruct (bool_decide _).
Qed.

Lemma mainLoop_nobody_on_probation (R toReturn : list types.Address) :
  mainLoop R [] toReturn = toReturn ++ R.
Proof.
  revert toReturn. induction R as [|a rest IH]; intros toReturn.
  - by rewrite app_nil_r.
  - cbn [mainLoop probationLoop]. by rewrite IH, <- app_assoc.
Qed.

Lemma mainLoop_everybody_on_probation (R P toReturn : list types.Address) :
  (∀ a, a ∈ R → a ∈ P) → mainLoop R P toReturn = toReturn.
Proof.
  revert toReturn. induction R as [|a rest IH]; intros toReturn HR; [done|].
  cbn [mainLoop]. rewrite probationLoop_strings.
  rewrite bool_decide_eq_true_2.
  - apply IH. intros b Hb. apply HR. by right.
  - apply list_elem_of_fmap. exists a. split; [done|]. apply HR. left.
Qed.

Lemma length_mainLoop (R P toReturn : list types.Address) :
  (length (mainLoop R P toReturn) ≤ length toReturn + length R)%nat.
Proof.
  revert toReturn. induction R as [|a rest IH]; intros toReturn.
  - cbn. lia.
  - cbn [mainLoop]. destruct (probationLoop a P).
    + specialize (IH toReturn). cbn. lia.
    + specialize (IH (toReturn ++ [a])). rewrite length_app in IH. cbn in *. lia.
Qed.

Lemma byte_of_to_Z (b : byte) : byte_of_Z (byte_to_Z b) = b.
Proof. by destruct b. Qed.

Lemma byte_of_Z_mod (z : Z) : byte_of_Z (z mod 256) = byte_of_Z z.
Proof. unfold byte_of_Z. by rewrite Z.mod_mod. Qed.

Lemma big_endian_SetBytes (buf : list byte) :
  big_endian (length buf) (SetBytes buf) = buf.
Proof.
  induction buf as [|b l IH] using rev_ind; [done|].
  rewrite length_app, Nat.add_comm. cbn [length Nat.add big_endian].
  rewrite SetBytes_app. pose proof (byte_to_Z_range b) as Hb.
  replace ((SetBytes l * 256 + byte_to_Z b) / 256) with (SetBytes l)
    by (apply Z.div_unique with (byte_to_Z b); lia).
  rewrite IH. f_equal. f_equal.
  rewrite <- byte_of_Z_mod.
  replace ((SetBytes l * 256 + byte_to_Z b) mod 256) with (byte_to_Z b)
    by (apply Z.mod_unique with (SetBytes l); lia).
  apply byte_of_to_Z.
Qed.

Lemma SetBytes_bound (buf : list byte) :
  0 ≤ SetBytes buf < 256 ^ Z.of_nat (length buf).
Proof.
  rewrite <- (big_endian_SetBytes buf) at 1 2.
  rewrite SetBytes_big_endian_mod. apply Z.mod_pos_bound.
  apply Z.pow_pos_nonneg; lia.
Qed.

Lemma SetBytes_leading_zeros (k : nat) (buf : list byte) :
  SetBytes (replicate k x00 ++ buf) = SetBytes buf.
Proof.
  unfold SetBytes. rewrite fold_left_app. f_equal.
  induction k as [|k IH]; [done|].
  by rewrite replicate_S_end, fold_left_app, IH.
Qed.

End Pure.

Section Composition.
Context {ext : Externals}.

#[local] Arguments QuerySequencers : simpl never.
#[local] Arguments QuerySequencersInProbation : simpl never.
#[local] Arguments QueryWatchtower : simpl never.
#[local] Arguments QueryActiveSequencers : simpl never.
#[local] Arguments QueryParticipantBalance : simpl never.
#[local] Arguments QueryParticipantTotalStakedAmount : simpl never.

Ltac open_world Hgl Ht :=
  do 3 (rewrite result_call; cbn [world_handler Header.Number]);
  rewrite Hgl; rewrite result_call; cbn [world_handler]; rewrite Ht.

Ltac query_world Hfree Hres :=
  rewrite result_bind_clock_free by apply Hfree;
  let H := fresh in
  pose proof Hres as H; unfold slice in H |- *; rewrite H; clear H.

Lemma InProbation_result (w : World) (n : nat) (gasLimit : Z) (t : Transition)
  (P : list types.Address) (address : types.Address) :
  let parent := chain_head w in
  let miner := types.BytesToAddress (Header.Miner parent) in
  CalculateGasLimit w (uint64 (Header.Number parent + 1)) = inr gasLimit →
  BeginTxn w (Header.StateRoot parent) (nextHeader parent (clock w n)) miner
    = inr t →
  query_result w (QuerySequencersInProbation t gasLimit miner) = (Some P, None) →
  result (world_handler w) (activeParticipantsQuerier.InProbation address) n
  = (bool_decide (address ∈ P), None).
Proof.
  intros parent miner Hgl Ht HP. subst parent miner. unfold nextHeader in Ht.
  unfold activeParticipantsQuerier.InProbation, types.Bytes.
  open_world Hgl Ht.
  query_world QuerySequencersInProbation_clock_free HP.
  cbn. by rewrite inProbationLoop_spec.
Qed.

Lemma total_staked_result (w : World) (n : nat) (gasLimit : Z) (t : Transition)
  (m : abi.Method) (buf : list byte) :
  let parent := chain_head w in
  let miner := types.BytesToAddress (Header.Miner parent) in
  CalculateGasLimit w (uint64 (Header.Number parent + 1)) = inr gasLimit →
  BeginTxn w (Header.StateRoot parent) (nextHeader parent (clock w n)) miner
    = inr t →
  StakingABI_Methods !! "GetCurrentStakedAmount" = Some m →
  Apply w t (queryTx miner (abi.ID m) gasLimit (GetNonce w t miner))
    = inr (ExecutionResult.mk buf None) →
  result (world_handler w) activeParticipantsQuerier.GetTotalStakedAmount n
  = (Some (SetBytes buf), None).
Proof.
  intros parent miner Hgl Ht Hm HApply. subst parent miner.
  unfold nextHeader in Ht. unfold queryTx in HApply.
  unfold activeParticipantsQuerier.GetTotalStakedAmount, types.Bytes.
  open_world Hgl Ht.
  pose (g := λ r : option Z * option error,
             match r with
             | (_, Some err) => (None : option Z, Some err)
             | (balance, None) => (balance, None)
             end).
  rewrite (result_bind _ _ _ g) by (by intros [? [?|]] ?).
  unfold QueryParticipantTotalStakedAmount. rewrite Hm.
  do 2 (rewrite result_call; cbn [world_handler]).
  by rewrite HApply.
Qed.

Lemma balance_result (w : World) (n : nat) (gasLimit : Z) (t : Transition)
  (address : types.Address) (m : abi.Method) (encodedInput buf : list byte) :
  let parent := chain_head w in
  let miner := types.BytesToAddress (Header.Miner parent) in
  CalculateGasLimit w (uint64 (Header.Number parent + 1)) = inr gasLimit →
  BeginTxn w (Header.StateRoot parent) (nextHeader parent (clock w n)) miner
    = inr t →
  StakingABI_Methods !! "GetCurrentAccountStakedAmount" = Some m →
  abi.Inputs_Encode m (abi.Map [("addr", abi.Bytes address)])
    = inr encodedInput →
  Apply w t (queryTx miner (abi.ID m ++ encodedInput) gasLimit
               (GetNonce w t miner))
    = inr (ExecutionResult.mk buf None) →
  result (world_handler w) (activeParticipantsQuerier.GetBalance address) n
  = (Some (SetBytes buf), None).
Proof.
  intros parent miner Hgl Ht Hm Henc HApply. subst parent miner.
  unfold nextHeader in Ht. unfold queryTx in HApply.
  unfold activeParticipantsQuerier.GetBalance, types.Bytes.
  open_world Hgl Ht.
  pose (g := λ r : option Z * option error,
             match r with
             | (_, Some err) => (None : option Z, Some err)
             | (balance, None) => (balance, None)
             end).
  rewrite (result_bind _ _ _ g) by (by intros [? [?|]] ?).
  unfold QueryParticipantBalance, types.Bytes. rewrite Hm, Henc.
  do 2 (rewrite result_call; cbn [world_handler]).
  by rewrite HApply.
Qed.

End Composition.

(** ** The resolver: what the operations submit, for every handler *)
Section ResolverExtras.
Context {ext : Externals}.

(** X1 (read-only calls).  Whatever the collaborators answer, every
    transaction any of the five operations submits is a read-only call
    to the staking contract: value zero, gas price zero, sent by the
    twenty-byte miner address of the head the operation read first,
    with a gas limit the calculator returned in the same run. *)
Theorem operations_submit_read_only_calls {S} (h : Handler S) (s : S)
  (addr : types.Address) (nodeType : NodeType) :
  read_only_calls (trace h (activeParticipantsQuerier.Get nodeType) s) ∧
  read_only_calls (trace h (activeParticipantsQuerier.Contains addr nodeType) s) ∧
  read_only_calls (trace h (activeParticipantsQuerier.InProbation addr) s) ∧
  read_only_calls (trace h (activeParticipantsQuerier.GetBalance addr) s) ∧
  read_only_calls (trace h activeParticipantsQuerier.GetTotalStakedAmount s).
Proof.
  split; [apply Get_protocol|].
  split; [apply Contains_protocol|].
  split; [apply InProbation_protocol|].
  split; [apply GetBalance_protocol|apply GetTotalStakedAmount_protocol].
Qed.

(** X2 (nonces).  In every run of the five operations each transaction
    carries the nonce the transition reported, for the sender of the
    transaction, in the call right before it; no nonce is read that is
    not used this way. *)
Theorem operations_read_nonce_before_apply {S} (h : Handler S) (s : S)
  (addr : types.Address) (nodeType : NodeType) :
  nonce_discipline (trace h (activeParticipantsQuerier.Get nodeType) s) ∧
  nonce_discipline (trace h (activeParticipantsQuerier.Contains addr nodeType) s) ∧
  nonce_discipline (trace h (activeParticipantsQuerier.InProbation addr) s) ∧
  nonce_discipline (trace h (activeParticipantsQuerier.GetBalance addr) s) ∧
  nonce_discipline (trace h activeParticipantsQuerier.GetTotalStakedAmount s).
Proof.
  split; [apply Get_protocol|].
  split; [apply Contains_protocol|].
  split; [apply InProbation_protocol|].
  split; [apply GetBalance_protocol|apply GetTotalStakedAmount_protocol].
Qed.

(** X3 (one transaction per transition).  In every run the transactions
    go to the transitions the run opened, in the order they were
    opened and one each: no transition is used for two queries.  [Get]
    and [Contains] open at most two transitions, the other operations
    at most one. *)
Theorem operations_use_each_transition_once {S} (h : Handler S) (s : S)
  (addr : types.Address) (nodeType : NodeType) :
  let opens_at_most (k : nat) (tr : list Call) :=
    one_per_transition tr ∧ (length (opened_transitions tr) ≤ k)%nat in
  opens_at_most 2%nat (trace h (activeParticipantsQuerier.Get nodeType) s) ∧
  opens_at_most 2%nat
    (trace h (activeParticipantsQuerier.Contains addr nodeType) s) ∧
  opens_at_most 1%nat (trace h (activeParticipantsQuerier.InProbation addr) s) ∧
  opens_at_most 1%nat (trace h (activeParticipantsQuerier.GetBalance addr) s) ∧
  opens_at_most 1%nat (trace h activeParticipantsQuerier.GetTotalStakedAmount s).
Proof.
  assert (∀ nt, (Nat.max 1 (length (methods_of_Get nt)) ≤ 2)%nat) as Hmax.
  { intros nt. unfold methods_of_Get. repeat case_decide; cbn; lia. }
  intros opens_at_most. subst opens_at_most. cbn beta.
  pose proof (Get_protocol h s nodeType) as (_ & _ & HG & _ & HGn).
  pose proof (Contains_protocol h s addr nodeType) as (_ & _ & HC & _ & HCn).
  pose proof (InProbation_protocol h s addr) as (_ & _ & HP & _ & HPn).
  pose proof (GetBalance_protocol h s addr) as (_ & _ & HB & _ & HBn).
  pose proof (GetTotalStakedAmount_protocol h s) as (_ & _ & HT & _ & HTn).
  specialize (Hmax nodeType). cbn in HPn, HTn.
  repeat split; try done; lia.
Qed.

(** X4 (which methods).  The inputs of the transactions of a run are
    the selectors the table gives the operation's methods, in order:
    [GetCurrentSequencers] then [GetCurrentSequencersInProbation] for
    the sequencers, [GetCurrentWatchtowers] for the watchtowers, nothing
    for any other node type; [GetCurrentSequencersInProbation] for
    [InProbation]; [GetCurrentStakedAmount] for the total; and for
    [GetBalance] the selector of [GetCurrentAccountStakedAmount]
    followed by the encoding of the address under the name [addr]. *)
Theorem operations_call_their_methods {S} (h : Handler S) (s : S)
  (addr : types.Address) (nodeType : NodeType) :
  calls_methods (methods_of_Get nodeType)
    (trace h (activeParticipantsQuerier.Get nodeType) s) ∧
  calls_methods (methods_of_Get nodeType)
    (trace h (activeParticipantsQuerier.Contains addr nodeType) s) ∧
  calls_methods ["GetCurrentSequencersInProbation"]
    (trace h (activeParticipantsQuerier.InProbation addr) s) ∧
  calls_methods ["GetCurrentStakedAmount"]
    (trace h activeParticipantsQuerier.GetTotalStakedAmount s) ∧
  calls_balance_method addr
    (trace h (activeParticipantsQuerier.GetBalance addr) s).
Proof.
  split; [apply Get_protocol|].
  split; [apply Contains_protocol|].
  split; [apply InProbation_protocol|].
  split; [apply GetTotalStakedAmount_protocol|apply GetBalance_protocol].
Qed.

(** X5 (nil exactly on error).  For every handler, [Get], [GetBalance]
    and [GetTotalStakedAmount] return a nil value exactly when they
    return an error: a successful [Get] returns a slice that is not
    nil, even when it is empty. *)
Theorem nil_exactly_on_error {S} (h : Handler S) (s : S)
  (addr : types.Address) (nodeType : NodeType) :
  let Get := result h (activeParticipantsQuerier.Get nodeType) s in
  let GetBalance := result h (activeParticipantsQuerier.GetBalance addr) s in
  let GetTotalStakedAmount :=
    result h activeParticipantsQuerier.GetTotalStakedAmount s in
  (Get.1 = None ↔ Get.2 ≠ None) ∧
  (GetBalance.1 = None ↔ GetBalance.2 ≠ None) ∧
  (GetTotalStakedAmount.1 = None ↔ GetTotalStakedAmount.2 ≠ None).
Proof.
  split; [apply Get_nil_iff_error|].
  split; [apply GetBalance_nil_iff_error|apply GetTotalStakedAmount_nil_iff_error].
Qed.

(** X7 (the probation set is a set).  The inner loop of
    [QueryActiveSequencers] asks whether the printed form of an address
    is among the printed forms of the probation list, and the nested
    loop depends on that list only through its elements: two lists with the same elements, in any order and
    with any repetitions, exclude the same addresses.  An empty
    probation list excludes nobody, a probation list that holds the
    whole role set excludes everybody, the loop never returns more
    than it was given, and it treats a role set piece by piece. *)
Theorem probation_list_is_a_set (R P P' toReturn : list types.Address) :
  (∀ a, probationLoop a P
        = bool_decide (Address_String a ∈ Address_String <$> P)) ∧
  ((∀ a, a ∈ P ↔ a ∈ P') → mainLoop R P toReturn = mainLoop R P' toReturn) ∧
  mainLoop R [] toReturn = toReturn ++ R ∧
  ((∀ a, a ∈ R → a ∈ P) → mainLoop R P toReturn = toReturn) ∧
  (length (mainLoop R P toReturn) ≤ length toReturn + length R)%nat ∧
  (∀ R', mainLoop (R ++ R') P toReturn = mainLoop R' P (mainLoop R P toReturn)).
Proof.
  split; [intros a; apply probationLoop_strings|].
  split; [apply mainLoop_probation_as_set|].
  split; [apply mainLoop_nobody_on_probation|].
  split; [apply mainLoop_everybody_on_probation|].
  split; [apply length_mainLoop|].
  intros R'. apply mainLoop_app.
Qed.

End ResolverExtras.

(** ** The resolver in a quiescent world: how the operations compose *)
Section CompositionExtras.
Context {ext : Externals}.

(** X8 (probation and membership).  On one head and one contract
    state, where the role query returns [R] and the probation query
    returns [P] on every transition it is asked on,
    [Contains(a, Sequencer)] is true exactly when [a] is in [R] and
    [InProbation(a)] is false: an address [InProbation] reports is
    never one [Contains] accepts as a sequencer. *)
Theorem Contains_excludes_probation {ok : ExternalsOK ext}
  (w : World) (n n' : nat) (gasLimit : Z) (t1 t2 t3 : Transition)
  (R P : list types.Address) (a : types.Address) :
  let parent := chain_head w in
  let miner := types.BytesToAddress (Header.Miner parent) in
  CalculateGasLimit w (uint64 (Header.Number parent + 1)) = inr gasLimit →
  BeginTxn w (Header.StateRoot parent) (nextHeader parent (clock w n)) miner
    = inr t1 →
  BeginTxn w (Header.StateRoot parent) (nextHeader parent (clock w (S n))) miner
    = inr t2 →
  BeginTxn w (Header.StateRoot parent) (nextHeader parent (clock w n')) miner
    = inr t3 →
  query_result w (QuerySequencers t1 gasLimit miner) = (Some R, None) →
  query_result w (QuerySequencersInProbation t2 gasLimit miner) = (Some P, None) →
  query_result w (QuerySequencersInProbation t3 gasLimit miner) = (Some P, None) →
  ∃ c p,
    result (world_handler w)
      (activeParticipantsQuerier.Contains a Sequencer) n = (c, None) ∧
    result (world_handler w)
      (activeParticipantsQuerier.InProbation a) n' = (p, None) ∧
    (c = true ↔ a ∈ R ∧ p = false) ∧
    (p = true → c = false).
Proof.
  intros parent miner Hgl Ht1 Ht2 Ht3 HR HP2 HP3.
  pose proof (Get_Sequencer_interp w n gasLimit t1 Hgl Ht1 R HR t2 Ht2 P HP2)
    as Hrun.
  rewrite mainLoop_spec, app_nil_l in Hrun.
  assert (result (world_handler w)
            (activeParticipantsQuerier.Get Sequencer) n
          = (Some (exclude_probation R P), None)) as HGet
    by (unfold result; by rewrite Hrun).
  exists (bool_decide (a ∈ exclude_probation R P)), (bool_decide (a ∈ P)).
  split; [by rewrite (Contains_after_Get _ _ _ _ _ HGet)|].
  split; [by apply InProbation_result with gasLimit t3|].
  pose proof (exclude_probation_elem_of R P a) as Hex.
  split.
  - split.
    + intros Hc%bool_decide_eq_true. apply Hex in Hc as [HaR HaP].
      split; [done|]. by apply bool_decide_eq_false.
    + intros [HaR HaP%bool_decide_eq_false].
      apply bool_decide_eq_true, Hex. done.
  - intros HaP%bool_decide_eq_true.
    apply bool_decide_eq_false. rewrite Hex. tauto.
Qed.

(** X9 (amounts and buffers).  Whatever buffer the contract returns
    without failing, of any length, [GetTotalStakedAmount] and
    [GetBalance] return the number it spells in big-endian order: a
    number below 256 to the length of the buffer, whose big-endian
    form at that length is the buffer again.  An empty buffer is zero
    and not an error, and zero bytes in front of a buffer do not change
    the amount. *)
Theorem staked_amount_spells_the_buffer
  (w : World) (n : nat) (gasLimit : Z) (t : Transition) (buf : list byte) :
  let parent := chain_head w in
  let miner := types.BytesToAddress (Header.Miner parent) in
  CalculateGasLimit w (uint64 (Header.Number parent + 1)) = inr gasLimit →
  BeginTxn w (Header.StateRoot parent) (nextHeader parent (clock w n)) miner
    = inr t →
  (∀ m,
     StakingABI_Methods !! "GetCurrentStakedAmount" = Some m →
     Apply w t (queryTx miner (abi.ID m) gasLimit (GetNonce w t miner))
       = inr (ExecutionResult.mk buf None) →
     result (world_handler w) activeParticipantsQuerier.GetTotalStakedAmount n
       = (Some (SetBytes buf), None)) ∧
  (∀ address m encodedInput,
     StakingABI_Methods !! "GetCurrentAccountStakedAmount" = Some m →
     abi.Inputs_Encode m (abi.Map [("addr", abi.Bytes address)])
       = inr encodedInput →
     Apply w t (queryTx miner (abi.ID m ++ encodedInput) gasLimit
                  (GetNonce w t miner))
       = inr (ExecutionResult.mk buf None) →
     result (world_handler w) (activeParticipantsQuerier.GetBalance address) n
       = (Some (SetBytes buf), None)) ∧
  0 ≤ SetBytes buf < 256 ^ Z.of_nat (length buf) ∧
  big_endian (length buf) (SetBytes buf) = buf ∧
  (buf = [] → SetBytes buf = 0) ∧
  (∀ k, SetBytes (replicate k x00 ++ buf) = SetBytes buf).
Proof.
  intros parent miner Hgl Ht.
  split; [intros m Hm HApply; by eapply total_staked_result|].
  split; [intros address m enc Hm Henc HApply; by eapply balance_result|].
  split; [apply SetBytes_bound|].
  split; [apply big_endian_SetBytes|].
  split; [by intros ->|].
  intros k. apply SetBytes_leading_zeros.
Qed.

End CompositionExtras.

(** ** Package [avail] *)
Section FreeFacts.
Context {E : Type → Type}.

Lemma free_interp_bind {S A B} (h : free.Handler E S) (p : free.t E A)
  (f : A → free.t E B) (s : S) :
  free.interp h (p ≫= f) s =
    let '(a, s1, tr1) := free.interp h p s in
    let '(b, s2, tr2) := free.interp h (f a) s1 in
    (b, s2, tr1 ++ tr2).
Proof.
  unfold mbind, free_bind. revert s.
  induction p as [a|X e k IH]; intros s; simpl.
  - by destruct (free.interp h (f a) s) as [[??]?].
  - destruct (h X e s) as [x s1]. rewrite IH.
    destruct (free.interp h (k x) s1) as [[a s2] tr1].
    by destruct (free.interp h (f a) s2) as [[??]?].
Qed.

End FreeFacts.

Section AvailFacts.
Import avail avail_trace.
Context {ext : Externals}.

Ltac avail_step h :=
  match goal with
  | |- context [h ?X ?e ?s] => destruct (h X e s) as [? ?]
  | |- context [let '(_, _) := ?x in _] => is_var x; destruct x
  | |- context [bool_decide (?err ≠ None) || negb ?ok] =>
      is_var err; is_var ok; destruct err, ok
  | |- context [match ?x with inl _ => _ | inr _ => _ end] =>
      is_var x; destruct x
  | |- context [match ?x with Some _ => _ | None => _ end] =>
      is_var x; destruct x
  | |- context [CreateStorageKey ?m ?p ?q ?a] =>
      destruct (CreateStorageKey m p q a) eqn:?
  | |- context [NewCall ?m ?n ?a] => destruct (NewCall m n a) eqn:?
  | |- context [NewMnemonic ?x] => destruct (NewMnemonic x) eqn:?
  | |- context [KeyringPairFromSecret ?x ?n] =>
      destruct (KeyringPairFromSecret x n) eqn:?
  end.

Ltac avail_run h := repeat (cbn -[omap Z.div AVL]; avail_step h).

Lemma Uint64_div_AVL {ok : ExternalsOK ext} (x : Z) : 0 ≤ Uint64 x / AVL ≤ 18.
Proof.
  pose proof (Uint64_range x) as Hx. unfold AVL. split.
  - apply Z.div_pos; lia.
  - apply Z.lt_succ_r. apply Z.div_lt_upper_bound; lia.
Qed.

(** X11 ([avail.GetBalance]).  When the storage lookup fails or finds
    no account, its error is the error returned, with a nil balance: a
    missing account is [(nil, nil)], not zero.  When it finds the
    account, the result is the free balance in whole AVL, rounded down,
    as long as the free balance fits 64 bits; and whatever the node
    answers, a balance returned is at most 18 AVL, since only the low
    64 bits of the free balance are read.  The key looked up is the one
    of the account given. *)
Theorem avail_GetBalance_outcomes {ok : ExternalsOK ext} {S} (h : free.Handler Event S)
  (s : S) (account : KeyringPair.t) :
  let out := free.result h (GetBalance account) s in
  let tr := free.trace h (GetBalance account) s in
  (∀ found err info,
     storage_answers tr = [(found, err, info)] →
     err ≠ None ∨ found = false →
     out = (None, err)) ∧
  (∀ info, storage_answers tr = [(true, None, info)] →
           0 ≤ AccountInfo.Free info < 2 ^ 64 →
           out = (Some (AccountInfo.Free info / AVL), None)) ∧
  (∀ b, out.1 = Some b → 0 ≤ b ≤ 18 ∧ out.2 = None) ∧
  (∀ key, key ∈ storage_keys tr →
          ∃ meta, CreateStorageKey meta "System" "Account"
                    [KeyringPair.PublicKey account; []] = inr key).
Proof.
  unfold free.result, free.trace, GetBalance. avail_run h.
  all: unfold storage_answers, storage_keys; cbn -[Z.div AVL].
  all: repeat split; intros; simplify_eq; try done.
  all: try (by rewrite Uint64_exact).
  all: try (by apply Uint64_div_AVL).
  all: try (by match goal with H : _ ∨ _ |- _ => destruct H end).
  all: try (by match goal with
               | H : _ ∈ [_] |- _ =>
                   apply list_elem_of_singleton in H; subst; eauto
               | H : _ ∈ [] |- _ => by apply elem_of_nil in H
               end).
Qed.

Ltac close_avail :=
  repeat split; intros; simplify_eq; try done;
  try (by match goal with H : _ ∨ _ |- _ => destruct H end);
  try (by match goal with
          | H : _ ∈ [_] |- _ =>
              apply list_elem_of_singleton in H; simplify_eq; eauto 10
          | H : _ ∈ [] |- _ => by apply elem_of_nil in H
          end).

(** X15 ([AccountExistsFromMnemonic]).  A file that cannot be read
    gives [false] and an error that wraps the cause, and nothing else is
    called; a mnemonic the key derivation refuses gives [false] and that
    error, with no call to the node; once the storage is asked, at most
    once and for the key of the account derived from the file, its two
    results are the two results returned; and without that lookup the
    answer is [false] with an error. *)
Theorem AccountExistsFromMnemonic_outcomes {S} (h : free.Handler Event S) (s : S)
  (path : string) :
  let out := free.result h (AccountExistsFromMnemonic path) s in
  let tr := free.trace h (AccountExistsFromMnemonic path) s in
  (∀ e, file_reads tr = [inl e] →
        out = (false, Some ("failure to read account file '" +:+ e +:+ "'")) ∧
        tr = [free.mkCall (os_ReadFile path) (inl e)]) ∧
  (∀ mnemonic e,
     file_reads tr = [inr mnemonic] →
     KeyringPairFromSecret mnemonic 42 = inl e →
     out = (false, Some e) ∧
     tr = [free.mkCall (os_ReadFile path) (inr mnemonic)]) ∧
  (∀ found err info,
     storage_answers tr = [(found, err, info)] → out = (found, err)) ∧
  (storage_answers tr = [] → out.1 = false ∧ out.2 ≠ None) ∧
  (length (storage_answers tr) ≤ 1)%nat ∧
  (∀ key, key ∈ storage_keys tr →
     ∃ mnemonic account meta,
       file_reads tr = [inr mnemonic] ∧
       KeyringPairFromSecret mnemonic 42 = inr account ∧
       CreateStorageKey meta "System" "Account"
         [KeyringPair.PublicKey account; []] = inr key).
Proof.
  unfold free.result, free.trace, AccountExistsFromMnemonic,
    NewAccountFromMnemonic.
  avail_run h.
  all: unfold storage_answers, storage_keys, file_reads; cbn.
  all: repeat split; intros; simplify_eq; try done; try congruence; try lia.
  all: try (by match goal with
               | H : _ ∈ [_] |- _ =>
                   apply list_elem_of_singleton in H; simplify_eq; eauto 10
               | H : _ ∈ [] |- _ => by apply elem_of_nil in H
               end).
Qed.

(** X16 ([NewAccount]).  One request for 128 bits of entropy and no
    other call; an error of the entropy source or of the mnemonic
    encoding is returned with the zero key pair; otherwise the result
    is that of [NewAccountFromMnemonic] on the generated mnemonic. *)
Theorem NewAccount_outcomes {S} (h : free.Handler Event S) (s : S) :
  let out := free.result h NewAccount s in
  let tr := free.trace h NewAccount s in
  ∃ r, tr = [free.mkCall (bip39_NewEntropy 128) r] ∧
       match r with
       | inl e => out = (KeyringPair.zero, Some e)
       | inr entropy =>
           match NewMnemonic entropy with
           | inl e => out = (KeyringPair.zero, Some e)
           | inr mnemonic => out = NewAccountFromMnemonic mnemonic
           end
       end.
Proof.
  unfold free.result, free.trace, NewAccount, NewAccountFromMnemonic.
  avail_run h; eexists; (split; [reflexivity|]); cbn;
    repeat match goal with H : _ = _ |- _ => rewrite H end; done.
Qed.


Lemma messages_selects (sub : Subscription)
  (msgs : list (ExtrinsicStatus.t + option error)) :
  messages (free.mkCall (Subscription_select sub) <$> msgs) = msgs.
Proof. induction msgs as [|m msgs IH]; [done|]. cbn. by f_equal. Qed.

(** The loop alone: it only receives, and stops at the first message
    that decides. *)
Lemma watch_run {S} (h : free.Handler Event S) (fuel : nat)
  (sub : Subscription) (s : S) :
  ∃ msgs,
    free.trace h (watch fuel sub) s
    = free.mkCall (Subscription_select sub) <$> msgs ∧
    watched fuel (free.result h (watch fuel sub) s) msgs.
Proof.
  unfold free.trace, free.result. revert s.
  induction fuel as [|fuel IH]; intros s.
  - exists []. by repeat split.
  - cbn [watch]. cbn -[watch].
    destruct (h _ (Subscription_select sub) s) as [m s1].
    destruct m as [status|err].
    + destruct (ExtrinsicStatus.IsFinalized status) eqn:HF;
        [|destruct (ExtrinsicStatus.IsInBlock status) eqn:HB;
          [|destruct (ExtrinsicStatus.IsDropped status
                      || ExtrinsicStatus.IsInvalid status) eqn:HD]].
      * exists [inl status]. split; [done|]. exists [], (inl status).
        cbn. rewrite HF. repeat split; [constructor|lia].
      * exists [inl status]. split; [done|]. exists [], (inl status).
        cbn. rewrite HF, HB. repeat split; [constructor|lia].
      * exists [inl status]. split; [done|]. exists [], (inl status).
        cbn. rewrite HF, HB, HD. repeat split; [constructor|lia].
      * destruct (IH s1) as (msgs & Htr & Hw).
        destruct (free.interp h (watch fuel sub) s1) as [[r s2] tr].
        cbn in Htr, Hw |- *. exists (inl status :: msgs).
        split; [by rewrite Htr|].
        assert (decides (inl status) = None) as Hund
          by (cbn; by rewrite HF, HB, HD).
        destruct r as [r|]; cbn in Hw |- *.
        -- destruct Hw as (before & last & -> & Hbefore & Hlast & Hlen).
           exists (inl status :: before), last.
           repeat split; [by constructor|done|cbn; lia].
        -- destruct Hw as [<- Hall]. split; [done|by constructor].
    + exists [inr err]. split; [done|]. exists [], (inr err).
      repeat split; [constructor|cbn; lia].
Qed.

Lemma selects_storage_answers sub msgs :
  storage_answers (free.mkCall (Subscription_select sub) <$> msgs) = [].
Proof. by induction msgs. Qed.

Lemma selects_storage_keys sub msgs :
  storage_keys (free.mkCall (Subscription_select sub) <$> msgs) = [].
Proof. by induction msgs. Qed.

Lemma selects_signed sub msgs :
  signed (free.mkCall (Subscription_select sub) <$> msgs) = [].
Proof. by induction msgs. Qed.

Lemma selects_submitted sub msgs :
  submitted (free.mkCall (Subscription_select sub) <$> msgs) = [].
Proof. by induction msgs. Qed.

Lemma selects_subscriptions sub msgs :
  subscriptions (free.mkCall (Subscription_select sub) <$> msgs) = [].
Proof. by induction msgs. Qed.

Lemma selects_unsubscribed sub msgs :
  unsubscribed (free.mkCall (Subscription_select sub) <$> msgs) = [].
Proof. by induction msgs. Qed.

Ltac use_select_fact H :=
  let H' := fresh in
  pose proof H as H';
  unfold storage_keys, storage_answers, signed, submitted, subscriptions,
    unsubscribed, messages in H';
  cbn in H'; rewrite H'; clear H'.

Ltac use_selects sub msgs :=
  use_select_fact (selects_storage_keys sub msgs);
  use_select_fact (selects_storage_answers sub msgs);
  use_select_fact (selects_signed sub msgs);
  use_select_fact (selects_submitted sub msgs);
  use_select_fact (selects_subscriptions sub msgs);
  use_select_fact (selects_unsubscribed sub msgs);
  use_select_fact (messages_selects sub msgs).

Lemma DepositBalance_run {S} (h : free.Handler Event S) (s : S) (fuel : nat)
  (account : KeyringPair.t) (amount nonceIncrement : Z) :
  deposit_run fuel account amount nonceIncrement
    (free.result h (DepositBalance fuel account amount nonceIncrement) s)
    (free.trace h (DepositBalance fuel account amount nonceIncrement) s).
Proof.
  unfold free.result, free.trace, DepositBalance.
  avail_run h.
  all: try (unfold deposit_run, storage_keys, storage_answers, signed,
              submitted, subscriptions, unsubscribed, messages; cbn;
            close_avail; cbn; lia).
  (* the run reached the loop *)
  unfold Prog. rewrite free_interp_bind.
  match goal with
  | |- context [free.interp h (watch fuel ?sub) ?s'] =>
      destruct (watch_run h fuel sub s') as (msgs & Htr & Hw);
      unfold free.trace, free.result in Htr, Hw;
      destruct (free.interp h (watch fuel sub) s') as [[r s''] trw];
      cbn in Htr, Hw; subst trw;
      destruct r as [r|]; cbn -[omap];
      [match goal with
       | |- context [h ?X ?e ?s1] => destruct (h X e s1) as [[] ?]
       end
      |destruct Hw as [Hlen Hall]];
      unfold deposit_run, storage_keys, storage_answers, signed,
        submitted, subscriptions, unsubscribed, messages;
      cbn -[omap];
      cbn; rewrite !omap_app;
      use_selects sub msgs;
      cbn; rewrite ?app_nil_r; close_avail; cbn; lia
  end.
Qed.

(** X12 ([DepositBalance], the signer's account).  The only account
    looked up is the signer's, Alice's, never the one the deposit is
    for.  When that lookup fails or finds nothing, its error is the
    result and nothing is signed or submitted: without Alice's account
    the function returns nil, as after a deposit. *)
Theorem DepositBalance_needs_the_signer_account {S}
  (h : free.Handler Event S) (s : S) (fuel : nat) (account : KeyringPair.t)
  (amount nonceIncrement : Z) :
  let out :=
    free.result h (DepositBalance fuel account amount nonceIncrement) s in
  let tr := free.trace h (DepositBalance fuel account amount nonceIncrement) s in
  (∀ key, key ∈ storage_keys tr →
     ∃ meta, CreateStorageKey meta "System" "Account"
               [KeyringPair.PublicKey TestKeyringPairAlice; []] = inr key) ∧
  (∀ found err info,
     storage_answers tr = [(found, err, info)] →
     err ≠ None ∨ found = false →
     out = Some err ∧ signed tr = [] ∧ submitted tr = []).
Proof.
  pose proof (DepositBalance_run h s fuel account amount nonceIncrement)
    as (Hkeys & Hmissing & _).
  by split.
Qed.


(** X14 ([DepositBalance], the watch loop).  A run signs, submits and
    subscribes at most once.  Without a subscription the function
    returns, having received and cancelled nothing.  With one, it
    returns at the first message that decides: nil for a finalized or
    in-block status, an error for a dropped or invalid one, and what
    the error channel delivered; the messages before it decide nothing;
    the subscription is cancelled exactly when the function returns;
    and it is still waiting only after as many undecided messages as
    rounds were allowed. *)
Theorem DepositBalance_watches_until_decided {S}
  (h : free.Handler Event S) (s : S) (fuel : nat) (account : KeyringPair.t)
  (amount nonceIncrement : Z) :
  let out :=
    free.result h (DepositBalance fuel account amount nonceIncrement) s in
  let tr := free.trace h (DepositBalance fuel account amount nonceIncrement) s in
  (length (signed tr) ≤ 1)%nat ∧ (length (submitted tr) ≤ 1)%nat ∧
  (length (subscriptions tr) ≤ 1)%nat ∧
  (subscriptions tr = [] →
     out ≠ None ∧ messages tr = [] ∧ unsubscribed tr = []) ∧
  (∀ sub, subscriptions tr = [sub] →
     watched fuel out (messages tr) ∧
     unsubscribed tr = match out with Some _ => [sub] | None => [] end).
Proof.
  pose proof (DepositBalance_run h s fuel account amount nonceIncrement)
    as (_ & _ & _ & ? & ? & ? & ? & ?).
  done.
Qed.

End AvailFacts.

(** ** Package [config] *)
Section ConfigFacts.
Import config.
Context {ext : Externals}.

Ltac config_run h :=
  repeat (cbn;
          match goal with
          | |- context [h ?X ?e ?s] => destruct (h X e s) as [[? ?] ?]
          | |- context [bool_decide (?err ≠ None)] => is_var err; destruct err
          end).

(** X17 (options that are not set).  The Prometheus address is
    resolved exactly when there is a telemetry section with an address
    that is not empty, and the secrets file is read exactly when its
    path is not empty; an option that is not set gives [(nil, nil)].
    The NAT address gives [(nil, nil)] exactly when it is empty, and an
    empty DNS address gives [(nil, nil)]. *)
Theorem unset_options_are_nil {S} (h : free.Handler Event S) (s : S) (cfg : Config.t)
  (p2pPort : Z) :
  let prometheus_unset :=
    Config.Telemetry cfg = None ∨
    Telemetry.PrometheusAddr <$> Config.Telemetry cfg = Some "" in
  (free.trace h (ParsePrometheusAddress cfg) s = [] ↔ prometheus_unset) ∧
  (prometheus_unset →
     free.result h (ParsePrometheusAddress cfg) s = (None, None)) ∧
  (free.trace h (ParseSecretsConfig cfg) s = [] ↔
     Config.SecretsConfigPath cfg = "") ∧
  (Config.SecretsConfigPath cfg = "" →
     free.result h (ParseSecretsConfig cfg) s = (None, None)) ∧
  (ParseNatAddress cfg = (None, None) ↔
     Network.NatAddr (Config.Network cfg) = "") ∧
  (Network.DNSAddr (Config.Network cfg) = "" →
     ParseDNSAddress cfg p2pPort = (None, None)).
Proof.
  unfold free.result, free.trace, ParsePrometheusAddress, ParseSecretsConfig,
    ParseNatAddress, ParseDNSAddress.
  destruct cfg as [g sp grpc j [[p]|] [l n d]]; cbn.
  all: destruct (decide (sp = "")), (decide (n = "")), (decide (d = ""));
    try destruct (decide (p = "")); subst.
  all: try destruct (net_ParseIP n).
  all: config_run h.
  all: repeat split; intros; simplify_eq; try done; try tauto.
  all: try (by match goal with H : _ ∨ _ |- _ => destruct H; simplify_eq end).
  all: try (by left).
  all: try (by right).
Qed.

(** X19 ([ParseNatAddress]).  An error is returned exactly when the
    address is set and is no IP address, and it is the fixed message;
    an address is returned exactly when the text is set and parses, and
    it is the parsed one; never both. *)
Theorem ParseNatAddress_outcomes (cfg : Config.t) :
  let natAddr := Network.NatAddr (Config.Network cfg) in
  (∀ e, (ParseNatAddress cfg).2 = Some e ↔
        natAddr ≠ "" ∧ net_ParseIP natAddr = None ∧
        e = "invalid network nat address provided") ∧
  (∀ addr, (ParseNatAddress cfg).1 = Some addr ↔
           natAddr ≠ "" ∧ net_ParseIP natAddr = Some addr) ∧
  ((ParseNatAddress cfg).1 = None ∨ (ParseNatAddress cfg).2 = None).
Proof.
  unfold ParseNatAddress. cbn.
  destruct (decide (Network.NatAddr (Config.Network cfg) = "")) as [Hn|Hn].
  - cbn. split; [|split]; [intros e|intros addr|by left];
      (split; [done|by intros [? _]]).
  - destruct (net_ParseIP _) as [ip|]; cbn.
    + split; [|split]; [intros e|intros addr|by right].
      * split; [done|by intros (_ & ? & _)].
      * split; [by intros [= ->]|by intros [_ [= ->]]].
    + split; [|split]; [intros e|intros addr|by left].
      * split; [by intros [= <-]|by intros (_ & _ & ->)].
      * split; [done|by intros [_ ?]].
Qed.

(** X20 ([ParseGenesisConfig]).  One import of the genesis path; its
    error is the error returned; the chain it gave is returned when
    there is no error and dropped when there is one, so that, unlike
    the resolvers, this function never returns both. *)
Theorem ParseGenesisConfig_outcomes {S} (h : free.Handler Event S) (s : S)
  (cfg : Config.t) :
  let out := free.result h (ParseGenesisConfig cfg) s in
  ∃ chain parseErr,
    free.trace h (ParseGenesisConfig cfg) s
    = [free.mkCall (chain_Import (Config.GenesisPath cfg)) (chain, parseErr)] ∧
    out.2 = parseErr ∧
    (parseErr = None → out.1 = chain) ∧
    (parseErr ≠ None → out.1 = None) ∧
    (out.1 = None ∨ out.2 = None).
Proof.
  unfold free.result, free.trace, ParseGenesisConfig. cbn.
  destruct (h _ _ s) as [[chain [e|]] s1]; cbn.
  - exists chain, (Some e). repeat split; try done. by left.
  - exists chain, None. repeat split; try done. by right.
Qed.

End ConfigFacts.

(** ** The further properties on the examples *)
Section ResolverExamples.
Import Scenario.

Lemma DecodeParticipants_outcomes_witness :
  DecodeParticipants (abi.mkMethod selSequencers encodeNone decodeAddresses)
    (A ++ C) = (Some [A; C], None) ∧
  DecodeParticipants (abi.mkMethod selSequencers encodeNone decodeAddresses)
    (take 7 A) = (None, Some "abi: cannot decode address list") ∧
  DecodeParticipants
    (abi.mkMethod selSequencers encodeNone (λ _, inr (abi.Map []))) []
  = (None, Some "failed type assertion from results[0] to []ethgo.Address").
Proof.
  split; [|split].
  - apply (proj1 (DecodeParticipants_outcomes
                    (abi.mkMethod selSequencers encodeNone decodeAddresses)
                    (A ++ C))).
    by exists [("0", abi.Addresses [A; C])].
  - by apply (proj1 (proj2 (DecodeParticipants_outcomes
                              (abi.mkMethod selSequencers encodeNone
                                 decodeAddresses)
                              (take 7 A)))).
  - apply (proj1 (proj2 (proj2 (DecodeParticipants_outcomes
                                  (abi.mkMethod selSequencers encodeNone
                                     (λ _, inr (abi.Map [])))
                                  [])))
             [] eq_refl).
    intros v Hv. by apply elem_of_nil in Hv.
Defined.

Lemma probation_list_is_a_set_witness :
  mainLoop [A; B; C] [B] [] = mainLoop [A; B; C] [B; B] [] ∧
  mainLoop [A; B] [C; B; A] [C] = [C].
Proof.
  split.
  - apply (proj1 (proj2 (probation_list_is_a_set [A; B; C] [B] [B; B] []))).
    intros a. rewrite !elem_of_cons. tauto.
  - apply (proj1 (proj2 (proj2 (proj2
                    (probation_list_is_a_set [A; B] [C; B; A] [] [C]))))).
    intros a. rewrite !elem_of_cons. tauto.
Defined.

Lemma Contains_excludes_probation_witness :
  ∃ c p,
    result (world_handler w0)
      (activeParticipantsQuerier.Contains B "sequencer") 0%nat = (c, None) ∧
    result (world_handler w0)
      (activeParticipantsQuerier.InProbation B) 3%nat = (p, None) ∧
    (c = true ↔ B ∈ [A; B; C] ∧ p = false) ∧
    (p = true → c = false).
Proof.
  refine (Contains_excludes_probation (ok := ext_ok) w0 0 3 8000000
            (opened 0) (opened 1) (opened 3) [A; B; C] [B] B
            _ _ _ _ _ _ _); reflexivity.
Defined.

Lemma staked_amount_spells_the_buffer_witness :
  result (world_handler w0) activeParticipantsQuerier.GetTotalStakedAmount 0%nat
  = (Some (SetBytes (replicate 32 xff)), None) ∧
  result (world_handler w0) (activeParticipantsQuerier.GetBalance B) 0%nat
  = (Some (SetBytes (replicate 32 x00)), None) ∧
  big_endian 32 (SetBytes (replicate 32 xff)) = replicate 32 xff.
Proof.
  pose proof (staked_amount_spells_the_buffer w0 0 8000000 (opened 0)
                (replicate 32 xff) eq_refl eq_refl) as (Htotal & _ & _ & Hround & _).
  pose proof (staked_amount_spells_the_buffer w0 0 8000000 (opened 0)
                (replicate 32 x00) eq_refl eq_refl) as (_ & Hbalance & _).
  split; [|split].
  - exact (Htotal (abi.mkMethod selStaked encodeNone decodeUint)
             eq_refl eq_refl).
  - exact (Hbalance B (abi.mkMethod selAccountStaked encodeAddr decodeUint)
             (replicate 12 x00 ++ B) eq_refl eq_refl eq_refl).
  - exact Hround.
Defined.

End ResolverExamples.

Section AvailExamples.
Import avail avail_trace AvailScenario.

Lemma avail_ext_ok : ExternalsOK AvailScenario.ext.
Proof.
  split; cbn.
  - intros x. apply Z.mod_pos_bound. lia.
  - intros x Hx. by apply Z.mod_small.
Qed.

Lemma avail_GetBalance_outcomes_witness :
  free.result (handler node) (GetBalance account) 0%nat = (Some 3, None) ∧
  free.result (handler node) (GetBalance TestKeyringPairAlice) 0%nat
  = (Some 5, None) ∧
  free.result (handler fresh_node) (GetBalance account) 0%nat = (None, None).
Proof.
  split; [|split].
  - refine (proj1 (proj2 (avail_GetBalance_outcomes (ok := avail_ext_ok)
                            (handler node) 0%nat account))
              (AccountInfo.mk 0 (3 * 10 ^ 18)) eq_refl _).
    cbn. lia.
  - refine (proj1 (proj2 (avail_GetBalance_outcomes (ok := avail_ext_ok)
                            (handler node) 0%nat TestKeyringPairAlice))
              (AccountInfo.mk 7 (5 * 10 ^ 18 + 7)) eq_refl _).
    cbn. lia.
  - exact (proj1 (avail_GetBalance_outcomes (ok := avail_ext_ok)
                    (handler fresh_node) 0%nat account)
             false None (AccountInfo.mk 0 0) eq_refl (or_intror eq_refl)).
Defined.

Lemma DepositBalance_needs_the_signer_account_witness :
  let run :=
    free.interp (handler fresh_node) (DepositBalance 5 account 1000 1) 0%nat in
  run.1.1 = Some None ∧ signed run.2 = [] ∧ submitted run.2 = [].
Proof.
  exact (proj2 (DepositBalance_needs_the_signer_account
                  (handler fresh_node) 0%nat 5%nat account 1000 1)
           false None (AccountInfo.mk 0 0) eq_refl (or_intror eq_refl)).
Defined.


Lemma DepositBalance_watches_until_decided_witness :
  let run fuel :=
    free.interp (handler node) (DepositBalance fuel account 1000 1) 0%nat in
  (watched 5 (Some None) [inl waiting; inl waiting; inl inBlock] ∧
   unsubscribed (run 5%nat).2 = [1%nat]) ∧
  (watched 2 None [inl waiting; inl waiting] ∧
   unsubscribed (run 2%nat).2 = []).
Proof.
  split.
  - exact (proj2 (proj2 (proj2 (proj2
             (DepositBalance_watches_until_decided (handler node) 0%nat 5%nat
                account 1000 1)))) 1%nat eq_refl).
  - exact (proj2 (proj2 (proj2 (proj2
             (DepositBalance_watches_until_decided (handler node) 0%nat 2%nat
                account 1000 1)))) 1%nat eq_refl).
Defined.

Lemma AccountExistsFromMnemonic_outcomes_witness :
  free.result (handler node) (AccountExistsFromMnemonic "account.seed") 0%nat
  = (true, None) ∧
  free.result (handler fresh_node) (AccountExistsFromMnemonic "account.seed")
    0%nat
  = (false, None) ∧
  free.result (handler node) (AccountExistsFromMnemonic "nowhere") 0%nat
  = (false, Some "failure to read account file 'open: no such file or directory'").
Proof.
  split; [|split].
  - exact (proj1 (proj2 (proj2 (AccountExistsFromMnemonic_outcomes
                                  (handler node) 0%nat "account.seed")))
             true None (AccountInfo.mk 0 (3 * 10 ^ 18)) eq_refl).
  - exact (proj1 (proj2 (proj2 (AccountExistsFromMnemonic_outcomes
                                  (handler fresh_node) 0%nat "account.seed")))
             false None (AccountInfo.mk 0 0) eq_refl).
  - exact (proj1 (proj1 (AccountExistsFromMnemonic_outcomes
                           (handler node) 0%nat "nowhere")
                    "open: no such file or directory" eq_refl)).
Defined.

End AvailExamples.

Section ConfigExamples.
Import config ConfigScenario.

Lemma unset_options_are_nil_witness :
  free.result handler (ParsePrometheusAddress cfg) () = (None, None) ∧
  free.result handler (ParseSecretsConfig cfg) () = (None, None) ∧
  ParseDNSAddress cfg 1478 = (None, None) ∧
  Network.NatAddr (Config.Network full_cfg) ≠ "".
Proof.
  pose proof (unset_options_are_nil handler () cfg 1478)
    as (_ & Hprometheus & _ & Hsecrets & _ & Hdns).
  pose proof (unset_options_are_nil handler () full_cfg 1478)
    as (_ & _ & _ & _ & Hnat & _).
  split; [exact (Hprometheus (or_introl eq_refl))|].
  split; [exact (Hsecrets eq_refl)|].
  split; [exact (Hdns eq_refl)|].
  intros Hempty. by apply Hnat in Hempty.
Defined.

Lemma ParseNatAddress_outcomes_witness :
  (ParseNatAddress cfg).1 = Some "10.0.0.7" ∧
  (ParseNatAddress full_cfg).2 = Some "invalid network nat address provided".
Proof.
  split.
  - apply (proj2 (proj1 (proj2 (ParseNatAddress_outcomes (ext := ext) cfg))
                    ("10.0.0.7" : string))).
    by split.
  - apply (proj2 (proj1 (ParseNatAddress_outcomes full_cfg)
                    "invalid network nat address provided")).
    by repeat split.
Defined.

End ConfigExamples.
